(** * Coffee roulette: the pairing engine of [pairings.py]

    A shallow embedding of the four functions of [src/pairings.py]
    ([get_all_possible_pairings], [generate_pairings_for_even_group],
    [score_solution] with [get_historical_pairs], and
    [find_best_pairings]) together with the properties the specification
    states about them, followed by further properties read off the code,
    and by the roster commands of [src/coffee.py] ([get_active_people],
    [add_person], [toggle]) as functions of the loaded data.

    Conventions.
    - Python lists are [list]; a pair tuple is a product; dictionaries with
      unique keys are stdpp [gmap]s, except where the code only iterates
      over the items in insertion order (the pairing history), which is an
      association list.
    - Python numbers: an [int] is a [Z]; a [float] is a binary64 number of
      the standard library's [SpecFloat], with the rounding of every
      operation; a score is either, as in the code.
    - An exception is a value of [pyerr], carried by the [result] monad.
    - The [print] calls of [find_best_pairings] only write to the console
      and are left out. *)

From Stdlib Require Import ssreflect ZArith Lia SpecFloat.
From stdpp Require Import base list gmap strings sorting.

Open Scope nat_scope.

(** ** Enumerator *)

Module Enumerator.
Section Pairings.
Context {A : Type}.

(** A matching is the list of pairs in the order the code builds it. *)
Definition pairing : Type := list (A * A).

(** A solution is the two-element list [[pairs, left_out]]. *)
Definition solution : Type := (pairing * list A)%type.

(** [l[:i] + l[i+1:]] *)
Definition without (i : nat) (l : list A) : list A :=
  take i l ++ drop (S i) l.

(** [generate_pairings_for_even_group], with the recursion depth made
    explicit: every recursive call is on a list two elements shorter, so
    [fuel] = [length people] is never exhausted (see
    [generate_pairings_for_even_group_eq]). *)
Fixpoint generate_fuel (fuel : nat) (people : list A) : list pairing :=
  match people with
  | [] => [[]]
  | [p0; p1] => [[(p0, p1)]]
  | first_person :: remaining =>
      match fuel with
      | 0 => []
      | S fuel' =>
          mjoin (imap (λ i partner,
                          let current_pair := (first_person, partner) in
                          let rest := without i remaining in
                          (λ sub_pairing, current_pair :: sub_pairing)
                            <$> generate_fuel fuel' rest)
                       remaining)
      end
  end.

Definition generate_pairings_for_even_group (people : list A) : list pairing :=
  generate_fuel (length people) people.

(** [get_all_possible_pairings] *)
Definition get_all_possible_pairings (people : list A) : list solution :=
  match people with
  | [] | [_] => []
  | [p0; p1] => [([(p0, p1)], [])]
  | [p0; p1; p2] =>
      [([(p1, p2)], [p0]); ([(p0, p2)], [p1]); ([(p0, p1)], [p2])]
  | _ =>
      if bool_decide (length people `mod` 2 = 1) then
        mjoin (imap (λ i left_out_person,
                        let remaining_people := without i people in
                        (λ pairing, (pairing, [left_out_person]))
                          <$> generate_pairings_for_even_group remaining_people)
                     people)
      else
        (λ pairing, (pairing, [])) <$> generate_pairings_for_even_group people
  end.

(** The general algorithm of lines 28-43 alone, without the shortcuts
    for two and three people. *)
Definition general_pairings (people : list A) : list solution :=
  if bool_decide (length people `mod` 2 = 1) then
    mjoin (imap (λ i left_out_person,
                    let remaining_people := without i people in
                    (λ pairing, (pairing, [left_out_person]))
                      <$> generate_pairings_for_even_group remaining_people)
                 people)
  else
    (λ pairing, (pairing, [])) <$> generate_pairings_for_even_group people.

(** *** Vocabulary of the specification *)

(** [n!!], the double factorial. *)
Fixpoint double_fact (n : nat) : nat :=
  match n with
  | S (S m) => n * double_fact m
  | _ => 1
  end.

(** Everybody named by a matching, pair by pair. *)
Definition members (m : pairing) : list A :=
  m ≫= λ p, [p.1; p.2].

(** Everybody named by a solution: the paired ones, then the leftover. *)
Definition participants (s : solution) : list A :=
  members s.1 ++ s.2.

(** The unordered pair [{a, b}] occurs in [m]. *)
Definition has_pair (m : pairing) (p : A * A) : Prop :=
  p ∈ m ∨ (p.2, p.1) ∈ m.

(** Two matchings have the same set of unordered pairs. *)
Definition same_pair_set (m1 m2 : pairing) : Prop :=
  Forall (has_pair m2) m1 ∧ Forall (has_pair m1) m2.

End Pairings.
End Enumerator.

(** ** Exceptions *)

Inductive pyerr : Type :=
  | ZeroDivisionError
  | IndexError
  | ValueError
  | OverflowError.

Inductive result (T : Type) : Type :=
  | Ok (v : T)
  | Raise (e : pyerr).
Arguments Ok {T} v.
Arguments Raise {T} e.

#[global] Instance result_ret : MRet result := λ T v, Ok v.
#[global] Instance result_bind : MBind result := λ T U f r,
  match r with
  | Ok v => f v
  | Raise e => Raise e
  end.

(** A [for] loop whose body may raise: the accumulator is threaded from
    left to right and the first exception ends the loop. *)
Fixpoint for_each {S T : Type} (body : S → T → result S) (s : S) (l : list T)
    : result S :=
  match l with
  | [] => Ok s
  | x :: l' => s' ← body s x; for_each body s' l'
  end.

(** ** Python numbers *)

Module Numbers.

(** A [float] is an IEEE 754 binary64 number: precision 53, infinities at
    exponent 1024, every operation rounded to nearest, ties to even. *)
Definition float : Type := spec_float.
Definition prec : Z := 53.
Definition emax : Z := 1024.

(** A conversion or a true division of [int]s whose rounded result is
    beyond the largest float raises [OverflowError]. *)
Definition in_range (x : float) : result float :=
  match x with
  | S754_infinity _ => Raise OverflowError
  | _ => Ok x
  end.

(** [float(z)] for an [int], correctly rounded. *)
Definition float_of_int (z : Z) : result float :=
  in_range (binary_normalize prec emax z 0 false).

(** [a / b] for two [int]s: the exact quotient, correctly rounded.  The
    quotient is taken with 64 bits or more and a last bit that records a
    remainder, which rounds as the exact quotient does. *)
Definition int_true_div (a b : Z) : result float :=
  if (b =? 0)%Z then Raise ZeroDivisionError
  else
    let negative := xorb (a <? 0)%Z (b <? 0)%Z in
    if (a =? 0)%Z then Ok (S754_zero negative)
    else
      let k := (64 + Z.log2 (Z.abs b))%Z in
      let n := (Z.abs a * 2 ^ k)%Z in
      let q := (n / Z.abs b)%Z in
      let sticky := if (n mod Z.abs b =? 0)%Z then 0%Z else 1%Z in
      let m := (2 * q + sticky)%Z in
      in_range (binary_normalize prec emax (if negative then - m else m)%Z
                                 (- (k + 1))%Z negative).

(** A number as the code handles it: an [int] or a [float]. *)
Inductive pynum : Type :=
  | PInt (z : Z)
  | PFloat (x : float).

(** The conversion of an operand of a mixed operation. *)
Definition to_float (n : pynum) : result float :=
  match n with
  | PInt z => float_of_int z
  | PFloat x => Ok x
  end.

(** [a + b], [a - b] and [a * b]: on two [int]s exact, otherwise on
    floats, an [int] operand being converted first. *)
Definition py_add (a b : pynum) : result pynum :=
  match a, b with
  | PInt x, PInt y => Ok (PInt (x + y))
  | _, _ => x ← to_float a; y ← to_float b; Ok (PFloat (SFadd prec emax x y))
  end.

Definition py_sub (a b : pynum) : result pynum :=
  match a, b with
  | PInt x, PInt y => Ok (PInt (x - y))
  | _, _ => x ← to_float a; y ← to_float b; Ok (PFloat (SFsub prec emax x y))
  end.

Definition py_mul (a b : pynum) : result pynum :=
  match a, b with
  | PInt x, PInt y => Ok (PInt (x * y))
  | _, _ => x ← to_float a; y ← to_float b; Ok (PFloat (SFmul prec emax x y))
  end.

(** The comparison of a float with an [int], which Python makes on the
    exact values. *)
Definition float_compare_int (x : float) (z : Z) : option comparison :=
  match x with
  | S754_nan => None
  | S754_infinity s => Some (if s then Lt else Gt)
  | S754_zero _ => Some (0 ?= z)%Z
  | S754_finite s m e =>
      let v := if s then Zneg m else Zpos m in
      if (0 <=? e)%Z then Some (v * 2 ^ e ?= z)%Z
      else Some (v ?= z * 2 ^ (- e))%Z
  end.

Definition py_compare (a b : pynum) : option comparison :=
  match a, b with
  | PInt x, PInt y => Some (x ?= y)%Z
  | PFloat x, PFloat y => SFcompare x y
  | PFloat x, PInt y => float_compare_int x y
  | PInt x, PFloat y => CompOpp <$> float_compare_int y x
  end.

(** [a < b] and [a <= b]; both are false when a NaN is compared. *)
Definition py_lt (a b : pynum) : bool :=
  match py_compare a b with
  | Some Lt => true
  | _ => false
  end.

Definition py_le (a b : pynum) : bool :=
  match py_compare a b with
  | Some (Lt | Eq) => true
  | _ => false
  end.

End Numbers.

(** ** Scorer *)

Module Scorer.
Import Numbers.

(** *** Week identifiers: [int(week.split('-')[1])] *)

(** The characters ['-'] and ['+']. *)
Definition dash : Ascii.ascii := Ascii.ascii_of_nat 45.
Definition plus : Ascii.ascii := Ascii.ascii_of_nat 43.

(** [s.split('-')] *)
Fixpoint split_dash (s : string) : list string :=
  match s with
  | EmptyString => [EmptyString]
  | String c s' =>
      if Ascii.eqb c dash then EmptyString :: split_dash s'
      else match split_dash s' with
           | field :: fields => String c field :: fields
           | [] => [String c EmptyString]
           end
  end.

Definition digit (c : Ascii.ascii) : option Z :=
  let n := Z.of_nat (Ascii.nat_of_ascii c) in
  if (48 <=? n)%Z && (n <=? 57)%Z then Some (n - 48)%Z else None.

Fixpoint digits (acc : Z) (s : string) : option Z :=
  match s with
  | EmptyString => Some acc
  | String c s' => d ← digit c; digits (10 * acc + d)%Z s'
  end.

(** At least one decimal digit, and nothing else. *)
Definition unsigned (s : string) : result Z :=
  match s with
  | EmptyString => Raise ValueError
  | _ => from_option Ok (Raise ValueError) (digits 0 s)
  end.

(** [int(s)] on an optional sign followed by ASCII decimal digits, of at
    most 4300 characters in all.  Where this answers [Ok] the built-in
    returns the same integer.  The built-in accepts more: surrounding white
    space, single underscores between digits, digits outside ASCII, and,
    depending on the version, longer strings; on those this model answers
    [ValueError], and nothing below is concluded from that answer. *)
Definition py_int (s : string) : result Z :=
  if bool_decide (4300 < String.length s) then Raise ValueError
  else
    match s with
    | String c t =>
        if Ascii.eqb c plus then unsigned t
        else if Ascii.eqb c dash then n ← unsigned t; Ok (- n)%Z
        else unsigned s
    | EmptyString => Raise ValueError
    end.

(** [l[1]] *)
Definition second (l : list string) : result string :=
  match l with
  | _ :: field :: _ => Ok field
  | _ => Raise IndexError
  end.

(** [int(week.split('-')[1])], the ordinal component of a week. *)
Definition week_num (week : string) : result Z :=
  field ← second (split_dash week); py_int field.

(** [max(weeks)]: the first of the greatest strings; comparison of [str]
    is by code point, which on UTF-8 text is the byte order of
    [String.ltb]. *)
Definition py_max (weeks : list string) : result string :=
  match weeks with
  | [] => Raise ValueError
  | week :: weeks' =>
      Ok (foldl (λ best w, if String.ltb best w then w else best) week weeks')
  end.

(** *** The data structure read by the scorer *)

(** An entry of [data['people']]; [times_left_out] is read with
    [.get('times_left_out', 0)] and may be absent. *)
Record person : Type := {
  active : bool;
  times_left_out : option Z;
  total_weeks_participated : Z;
}.

(** An entry of [data['pairings']]: each of the three pair lists is
    present or not; a recorded pair is a JSON list of any length. *)
Record week_data : Type := {
  week_pairs : option (list (list string));
  week_manual_pairs : option (list (list string));
  week_auto_pairs : option (list (list string));
}.

Record data : Type := {
  people : gmap string person;
  pairings : option (list (string * week_data));
}.

(** [tuple(sorted([person1, person2]))] *)
Definition pair_key (person1 person2 : string) : string * string :=
  if String.ltb person2 person1 then (person2, person1)
  else (person1, person2).

(** The three [extend] calls of [get_historical_pairs]. *)
Definition all_pairs (w : week_data) : list (list string) :=
  default [] (week_pairs w) ++ default [] (week_manual_pairs w)
    ++ default [] (week_auto_pairs w).

(** [if len(pair) == 2: pairs[tuple(sorted(pair))].append(week)] on a
    [defaultdict(list)]. *)
Definition record_pair (week : string)
    (pairs : gmap (string * string) (list string)) (pair : list string)
    : gmap (string * string) (list string) :=
  match pair with
  | [person1; person2] =>
      partial_alter (λ weeks, Some (default [] weeks ++ [week]))
                    (pair_key person1 person2) pairs
  | _ => pairs
  end.

Definition get_historical_pairs (d : data)
    : gmap (string * string) (list string) :=
  foldl (λ pairs (item : string * week_data),
           foldl (record_pair item.1) pairs (all_pairs item.2))
        ∅ (default [] (pairings d)).

(** *** Weights and breakdown *)

(** The values of the [weights] dictionary: numbers, [int] or [float]. *)
Record weights : Type := {
  first_time_meeting : pynum;
  recent_pairing_penalty : pynum;
  old_pairing_penalty : pynum;
  fairness_bonus : pynum;
}.

Definition default_weights : weights := {|
  first_time_meeting := PInt 10;
  recent_pairing_penalty := PInt (-5);
  old_pairing_penalty := PInt (-1);
  fairness_bonus := PInt 3;
|}.

Record breakdown : Type := {
  first_time_meetings : nat;
  recent_pairings : nat;
  old_pairings : nat;
  fairness_score : pynum;
  total_pairs : nat;
}.

(** *** [score_solution] *)

(** [current_week_num - recent_week_num] *)
Definition weeks_ago (target_week most_recent : string) : result Z :=
  current_week_num ← week_num target_week;
  recent_week_num ← week_num most_recent;
  Ok (current_week_num - recent_week_num)%Z.

(** [breakdown['first_time_meetings'] += 1] and its two siblings. *)
Definition count_first_time (b : breakdown) : breakdown :=
  {| first_time_meetings := first_time_meetings b + 1;
     recent_pairings := recent_pairings b;
     old_pairings := old_pairings b;
     fairness_score := fairness_score b;
     total_pairs := total_pairs b |}.

Definition count_recent (b : breakdown) : breakdown :=
  {| first_time_meetings := first_time_meetings b;
     recent_pairings := recent_pairings b + 1;
     old_pairings := old_pairings b;
     fairness_score := fairness_score b;
     total_pairs := total_pairs b |}.

Definition count_old (b : breakdown) : breakdown :=
  {| first_time_meetings := first_time_meetings b;
     recent_pairings := recent_pairings b;
     old_pairings := old_pairings b + 1;
     fairness_score := fairness_score b;
     total_pairs := total_pairs b |}.

(** The body of the loop over the pairs (lines 113-135). *)
Definition score_pair (w : weights)
    (historical_pairs : gmap (string * string) (list string))
    (target_week : string) (st : pynum * breakdown) (pair : string * string)
    : result (pynum * breakdown) :=
  let '(score, b) := st in
  match historical_pairs !! pair_key pair.1 pair.2 with
  | None =>
      score' ← py_add score (first_time_meeting w);
      Ok (score', count_first_time b)
  | Some last_weeks =>
      most_recent ← py_max last_weeks;
      ago ← weeks_ago target_week most_recent;
      if (ago <=? 2)%Z then
        score' ← py_add score (recent_pairing_penalty w);
        Ok (score', count_recent b)
      else if (ago <=? 4)%Z then
        score' ← py_add score (old_pairing_penalty w);
        Ok (score', count_old b)
      else Ok (score, b)
  end.

(** [sum(p.get('times_left_out', 0) for p in people_stats.values())] *)
Definition sum_left_out (people_stats : gmap string person) : Z :=
  map_fold (λ _ p acc, (default 0 (times_left_out p) + acc)%Z) 0%Z people_stats.

(** [sum(...) / len(people_stats)]: a true division of two [int]s, which
    raises [ZeroDivisionError] on an empty dictionary. *)
Definition avg_left_out (people_stats : gmap string person) : result float :=
  int_true_div (sum_left_out people_stats) (Z.of_nat (size people_stats)).

(** [people_stats.get(person, {}).get('times_left_out', 0)] *)
Definition left_out_count (people_stats : gmap string person)
    (person : string) : Z :=
  default 0%Z (people_stats !! person ≫= times_left_out).

(** The body of the loop over the people left out (lines 142-147). *)
Definition score_left_out (w : weights) (people_stats : gmap string person)
    (avg_left_out : float) (st : pynum * breakdown) (person : string)
    : result (pynum * breakdown) :=
  let '(score, b) := st in
  let person_left_out_count := left_out_count people_stats person in
  fairness_diff ← py_sub (PFloat avg_left_out) (PInt person_left_out_count);
  fairness ← py_mul fairness_diff (fairness_bonus w);
  score' ← py_add score fairness;
  fairness_total ← py_add (fairness_score b) fairness;
  Ok (score',
      {| first_time_meetings := first_time_meetings b;
         recent_pairings := recent_pairings b;
         old_pairings := old_pairings b;
         fairness_score := fairness_total;
         total_pairs := total_pairs b |}).

Definition score_solution (pairs : list (string * string))
    (left_out : list string) (d : data) (target_week : string)
    (w : weights) : result (pynum * breakdown) :=
  let score := PInt 0 in
  let b := {| first_time_meetings := 0; recent_pairings := 0;
              old_pairings := 0; fairness_score := PInt 0;
              total_pairs := length pairs |} in
  let historical_pairs := get_historical_pairs d in
  st ← for_each (score_pair w historical_pairs target_week) (score, b) pairs;
  match left_out with
  | [] => Ok st
  | _ :: _ =>
      let people_stats := people d in
      avg ← avg_left_out people_stats;
      for_each (score_left_out w people_stats avg) st left_out
  end.

(** *** Vocabulary of the specification *)

(** [(average - theirCount) * fairnessBonus] for one person left out, as
    the code computes it on floats. *)
Definition fairness_term (w : weights) (roster : gmap string person)
    (average : float) (person : string) : result pynum :=
  fairness_diff ← py_sub (PFloat average) (PInt (left_out_count roster person));
  py_mul fairness_diff (fairness_bonus w).

(** The running sum [acc += term] over a list of terms. *)
Definition add_all (acc : pynum) (terms : list pynum) : result pynum :=
  for_each py_add acc terms.

(** A breakdown with its fairness entry replaced. *)
Definition with_fairness (total : pynum) (b : breakdown) : breakdown :=
  {| first_time_meetings := first_time_meetings b;
     recent_pairings := recent_pairings b;
     old_pairings := old_pairings b;
     fairness_score := total;
     total_pairs := total_pairs b |}.

(** A breakdown for one pair more. *)
Definition one_more_pair (b : breakdown) : breakdown :=
  {| first_time_meetings := first_time_meetings b;
     recent_pairings := recent_pairings b;
     old_pairings := old_pairings b;
     fairness_score := fairness_score b;
     total_pairs := S (total_pairs b) |}.

(** A roster entry with its [active] flag replaced. *)
Definition with_active (flag : bool) (p : person) : person :=
  {| active := flag; times_left_out := times_left_out p;
     total_weeks_participated := total_weeks_participated p |}.

End Scorer.

(** ** Solution ranker *)

Module Ranker.
Import Enumerator Numbers Scorer.

(** The last component of a returned tuple: the scorer's breakdown, or
    the [{'note': ...}] dictionary of the two degenerate cases. *)
Inductive report : Type :=
  | Scored (b : breakdown)
  | Note (note : string).

(** A returned tuple [(score, pairs, left_out, breakdown)]. *)
Record ranked : Type := {
  score : pynum;
  pairs : list (string * string);
  left_out : list string;
  details : report;
}.

(** The set built by [manually_paired_people.update(pair)]. *)
Definition manually_paired_people (manual_pairs : list (string * string))
    : gset string :=
  foldl (λ people pair, people ∪ {[pair.1; pair.2]}) ∅ manual_pairs.

(** [[p for p in active_people if p not in manually_paired_people]] *)
Definition available_people (active_people : list string)
    (manual_pairs : list (string * string)) : list string :=
  filter (λ p, p ∉ manually_paired_people manual_pairs) active_people.

(** [sort(key=lambda x: x[0], reverse=True)]: the sort compares scores
    with [<] only and is stable, also when reversed, so an element is
    placed before the first one that its score is not less than. *)
Fixpoint insert_desc (x : ranked) (l : list ranked) : list ranked :=
  match l with
  | [] => [x]
  | y :: l' =>
      if py_lt (score x) (score y) then y :: insert_desc x l'
      else x :: y :: l'
  end.

Definition sort_desc (l : list ranked) : list ranked :=
  foldr insert_desc [] l.

(** The body of the scoring loop (lines 218-222); [score_solution] is
    called without weights, hence with the default ones. *)
Definition score_candidate (d : data) (target_week : string)
    (manual_pairs : list (string * string))
    (scored_solutions : list ranked) (candidate : solution (A:=string))
    : result (list ranked) :=
  let '(auto_pairs, left_out) := candidate in
  let all_pairs := manual_pairs ++ auto_pairs in
  '(score, breakdown) ←
    score_solution all_pairs left_out d target_week default_weights;
  Ok (scored_solutions ++ [ {| score := score; pairs := all_pairs;
                               left_out := left_out;
                               details := Scored breakdown |} ]).

(** [find_best_pairings]; [top_n] is the number of solutions to return,
    a count. *)
Definition find_best_pairings (active_people : list string) (d : data)
    (target_week : string) (manual_pairs : list (string * string))
    (top_n : nat) : result (list ranked) :=
  let available_people := available_people active_people manual_pairs in
  if bool_decide (length available_people < 2)
     && bool_decide (0 < length available_people) then
    Ok [ {| score := PInt 0; pairs := manual_pairs;
            left_out := available_people;
            details := Note "Only 1 person available for auto-pairing" |} ]
  else if bool_decide (length available_people = 0) then
    Ok [ {| score := PInt 0; pairs := manual_pairs; left_out := [];
            details := Note "All pairs are manual" |} ]
  else
    let all_solutions := get_all_possible_pairings available_people in
    scored_solutions ←
      for_each (score_candidate d target_week manual_pairs) [] all_solutions;
    Ok (take top_n (sort_desc scored_solutions)).

(** *** Vocabulary of the specification *)

(** [r1] may come before [r2] in a list sorted by score, best first. *)
Definition score_ge (r1 r2 : ranked) : Prop :=
  py_le (score r2) (score r1) = true.

(** The sample data of [test_pairing_algorithm]. *)
Definition test_data : data := {|
  people := list_to_map [
    ("Mary Jones", {| active := true; times_left_out := Some 1%Z;
                      total_weeks_participated := 5 |});
    ("Peter Smith", {| active := true; times_left_out := Some 0%Z;
                       total_weeks_participated := 6 |});
    ("Sarah Brown", {| active := true; times_left_out := Some 2%Z;
                       total_weeks_participated := 4 |});
    ("John Doe", {| active := true; times_left_out := Some 0%Z;
                    total_weeks_participated := 6 |});
    ("Lisa Wilson", {| active := true; times_left_out := Some 1%Z;
                       total_weeks_participated := 5 |}) ];
  pairings := Some [
    ("2025-29", {| week_pairs := Some [["Mary Jones"; "Peter Smith"];
                                       ["Sarah Brown"; "John Doe"]];
                   week_manual_pairs := None; week_auto_pairs := None |});
    ("2025-30", {| week_pairs := Some [["Mary Jones"; "Sarah Brown"];
                                       ["Peter Smith"; "Lisa Wilson"]];
                   week_manual_pairs := None; week_auto_pairs := None |}) ];
|}.

Definition test_people : list string :=
  ["Mary Jones"; "Peter Smith"; "Sarah Brown"; "John Doe"; "Lisa Wilson"].

End Ranker.

(** ** Roster management ([coffee.py]) *)

Module Roster.

(** An entry of the JSON object [data["people"]].  The key ["active"] may
    be missing from a file written by hand; when present it is a
    boolean. *)
Record entry : Type := {
  entry_active : option bool;
  entry_times_left_out : Z;
  entry_total_weeks_participated : Z;
}.

(** [data["people"]], a dictionary: the items in insertion order, every
    name at most once. *)
Definition roster : Type := list (string * entry).

Definition names (r : roster) : list string := r.*1.

(** [data["people"].get(name)] *)
Fixpoint find_entry (name : string) (r : roster) : option entry :=
  match r with
  | [] => None
  | (n, e) :: r' => if bool_decide (n = name) then Some e else find_entry name r'
  end.

(** [[name for name, info in data["people"].items()
      if info.get("active", True)]] *)
Definition get_active_people (r : roster) : list string :=
  (filter (λ item, default true (entry_active item.2) = true) r).*1.

(** The entry written by [add_person]. *)
Definition new_entry : entry :=
  {| entry_active := Some true; entry_times_left_out := 0;
     entry_total_weeks_participated := 0 |}.

(** [add_person], from the loaded data to the data handed to [save_data]:
    [None] when the command returns before saving because the name is
    already there.  A key new to a dictionary goes last. *)
Definition add_person (name : string) (r : roster) : option roster :=
  if bool_decide (name ∈ names r) then None
  else Some (r ++ [(name, new_entry)]).

(** [data["people"][name]["active"] = value], the entry staying in place. *)
Fixpoint set_active (name : string) (value : bool) (r : roster) : roster :=
  match r with
  | [] => []
  | (n, e) :: r' =>
      if bool_decide (n = name) then
        (n, {| entry_active := Some value;
               entry_times_left_out := entry_times_left_out e;
               entry_total_weeks_participated :=
                 entry_total_weeks_participated e |}) :: r'
      else (n, e) :: set_active name value r'
  end.

(** What [toggle] does with the loaded data. *)
Inductive toggled : Type :=
  | NotFound
  | KeyError
  | Saved (r : roster).

(** [toggle]: an unknown name is reported and nothing is saved; reading
    [data["people"][name]["active"]] raises [KeyError] when the entry has
    no such key; otherwise the negated status is stored and the data
    handed to [save_data]. *)
Definition toggle (name : string) (r : roster) : toggled :=
  match find_entry name r with
  | None => NotFound
  | Some e =>
      match entry_active e with
      | None => KeyError
      | Some current_status => Saved (set_active name (negb current_status) r)
      end
  end.

End Roster.

Import Enumerator Numbers Scorer Ranker.

(** ** Invariants used in the proofs *)

(** What an index holds, relative to the recordings [R] made so far: no
    empty list, and under each key exactly the recorded weeks. *)
Definition index_holds (index : gmap (string * string) (list string))
    (R : string * string → string → Prop) : Prop :=
  ∀ key, index !! key ≠ Some [] ∧
         ∀ week, week ∈ default [] (index !! key) ↔ R key week.

(** A float that is a number, and one that is finite. *)
Definition is_number (x : float) : Prop := x ≠ S754_nan.

Definition is_finite (x : float) : Prop :=
  match x with
  | S754_zero _ | S754_finite _ _ _ => True
  | _ => False
  end.

(** A call that returns, or raises [OverflowError] and nothing else. *)
Definition returns_or_overflows {T} (r : result T) : Prop :=
  (∃ v, r = Ok v) ∨ r = Raise OverflowError.

(** The three weights of the loop over the pairs are [int]s. *)
Definition pair_weights (w : weights) (k1 k2 k3 : Z) : Prop :=
  first_time_meeting w = PInt k1 ∧ recent_pairing_penalty w = PInt k2 ∧
  old_pairing_penalty w = PInt k3.

(** Scores of one kind, on which the comparison is a total preorder. *)
Definition int_score (r : ranked) : Prop := ∃ z, score r = PInt z.

Definition float_score (r : ranked) : Prop :=
  ∃ x, score r = PFloat x ∧ is_number x.

(** The part of a score that the counters of a breakdown account for when
    the three weights are the [int]s [k1], [k2] and [k3]. *)
Definition weighted_counts (k1 k2 k3 : Z) (b : breakdown) : Z :=
  (Z.of_nat (first_time_meetings b) * k1
   + Z.of_nat (recent_pairings b) * k2
   + Z.of_nat (old_pairings b) * k3)%Z.

(** The pairs counted by a breakdown, whatever their kind. *)
Definition counted_pairs (b : breakdown) : nat :=
  first_time_meetings b + recent_pairings b + old_pairings b.

(** The tuple [r] is what the scoring loop of [find_best_pairings] appends
    for the candidate [c]: the manual pairs before the candidate's own, its
    leftover, and the score and breakdown of [score_solution]. *)
Definition scores_as (d : data) (target_week : string)
    (manual_pairs : list (string * string)) (c : solution (A:=string))
    (r : ranked) : Prop :=
  ∃ b, score_solution (manual_pairs ++ c.1) c.2 d target_week default_weights
         = Ok (score r, b) ∧
       pairs r = manual_pairs ++ c.1 ∧ left_out r = c.2 ∧ details r = Scored b.

(** * Properties *)

(** ** Enumerator: the recursion *)

Section EnumeratorRecursion.
Context {A : Type}.
Implicit Types (people remaining : list A) (m : pairing (A:=A)).

Lemma without_delete i (l : list A) : without i l = delete i l.
Proof. by rw /without delete_take_drop. Qed.

Lemma length_without i x (l : list A) :
  l !! i = Some x → S (length (without i l)) = length l.
Proof.
  intros Hi. rw without_delete length_delete; [by eexists|].
  apply lookup_lt_Some in Hi. lia.
Qed.

Lemma without_Permutation i x (l : list A) :
  l !! i = Some x → l ≡ₚ x :: without i l.
Proof. rw without_delete. apply delete_Permutation. Qed.

Lemma generate_fuel_step n first_person remaining :
  length remaining ≠ 1 →
  generate_fuel (S n) (first_person :: remaining) =
    mjoin (imap (λ i partner,
                    (λ sub_pairing, (first_person, partner) :: sub_pairing)
                      <$> generate_fuel n (without i remaining))
                 remaining).
Proof. by destruct remaining as [|b [|c l]]. Qed.

(** Fuel beyond the length of the list changes nothing. *)
Lemma generate_fuel_enough n n' people :
  length people ≤ n → length people ≤ n' →
  generate_fuel n people = generate_fuel n' people.
Proof.
  revert n' people. induction n as [|n IH]; intros n' people Hn Hn'.
  - destruct people; [by destruct n' | simpl in Hn; lia].
  - destruct people as [|a [|b [|c l]]]; [by destruct n'.. |].
    destruct n' as [|n']; [simpl in Hn'; lia|].
    rw !generate_fuel_step //. f_equal. apply imap_ext. intros i x Hi.
    cbn beta. f_equal. apply length_without in Hi. simpl in *. apply IH; lia.
Qed.

(** The recursive equation of the source function: the model runs the
    body of [generate_pairings_for_even_group] on every list. *)
Lemma generate_pairings_for_even_group_eq people :
  generate_pairings_for_even_group people =
    match people with
    | [] => [[]]
    | [p0; p1] => [[(p0, p1)]]
    | first_person :: remaining =>
        mjoin (imap (λ i partner,
                        (λ sub_pairing, (first_person, partner) :: sub_pairing)
                          <$> generate_pairings_for_even_group
                                (without i remaining))
                     remaining)
    end.
Proof.
  unfold generate_pairings_for_even_group.
  destruct people as [|a [|b [|c l]]]; [done..|].
  cbn [length]. rw generate_fuel_step //. f_equal. apply imap_ext.
  intros i x Hi. cbn beta. f_equal. apply length_without in Hi.
  simpl in Hi. apply generate_fuel_enough; lia.
Qed.

(** The length of a concatenation of [imap]ped blocks of equal size. *)
Lemma length_concat_imap {B C} (f : nat → B → list C) (l : list B) c :
  (∀ i x, l !! i = Some x → length (f i x) = c) →
  length (mjoin (imap f l)) = length l * c.
Proof.
  revert f. induction l as [|x l IH]; intros f Hf; [done|].
  rw imap_cons /= length_app (Hf 0 x) // IH //.
  intros i y Hi. by apply (Hf (S i)).
Qed.

Lemma double_fact_odd_step k :
  double_fact (2 * S k - 1) = (2 * k + 1) * double_fact (2 * k - 1).
Proof.
  destruct k as [|k]; [done|].
  replace (2 * S (S k) - 1) with (S (S (2 * S k - 1))) by lia.
  cbn [double_fact]. f_equal. lia.
Qed.

(** An even group of [2k] people has [(2k-1)!!] matchings. *)
Lemma length_generate k people :
  length people = 2 * k →
  length (generate_pairings_for_even_group people) = double_fact (2 * k - 1).
Proof.
  revert people. induction k as [|k IH]; intros people Hlen.
  - by destruct people.
  - rw generate_pairings_for_even_group_eq.
    destruct people as [|a [|b [|c l]]]; [done | simpl in Hlen; lia | |].
    + simpl in Hlen. by replace k with 0 by lia.
    + rw (length_concat_imap _ _ (double_fact (2 * k - 1))).
      * intros i x Hi. rw length_fmap. apply IH.
        apply length_without in Hi. simpl in *. lia.
      * rw double_fact_odd_step. simpl in *. f_equal. lia.
Qed.

End EnumeratorRecursion.

(** ** Lists whose elements are pairwise unrelated *)

Section OrdPairs.
Context {B : Type} (R : B → B → Prop).

Lemma ForallOrdPairs_app (l1 l2 : list B) :
  ForallOrdPairs R l1 → ForallOrdPairs R l2 →
  (∀ x y, x ∈ l1 → y ∈ l2 → R x y) →
  ForallOrdPairs R (l1 ++ l2).
Proof.
  intros H1 H2 H12. induction H1 as [|x l1 Hx H1 IH]; [done|].
  simpl. constructor.
  - apply Forall_app. split; [done|].
    apply Forall_forall. intros y Hy. apply H12; [left | done].
  - apply IH. intros a b Ha. apply H12. by right.
Qed.

Lemma ForallOrdPairs_join_imap {C} (f : nat → C → list B) (l : list C) :
  (∀ i x, l !! i = Some x → ForallOrdPairs R (f i x)) →
  (∀ i j x y a b, i < j → l !! i = Some x → l !! j = Some y →
                  a ∈ f i x → b ∈ f j y → R a b) →
  ForallOrdPairs R (mjoin (imap f l)).
Proof.
  revert f. induction l as [|x l IH]; intros f Hin Hcross; [constructor|].
  rw imap_cons /=. apply ForallOrdPairs_app.
  - by apply (Hin 0).
  - apply IH.
    + intros i y Hi. by apply (Hin (S i)).
    + intros i j y z a b Hij Hi Hj. apply (Hcross (S i) (S j)); [lia|done..].
  - intros a b Ha Hb. apply list_elem_of_join in Hb as (block & Hb & Hblock).
    apply elem_of_lookup_imap in Hblock as (j & y & -> & Hj).
    by apply (Hcross 0 (S j) x y); [lia|..].
Qed.

Lemma ForallOrdPairs_lookup (l : list B) i j a b :
  ForallOrdPairs R l → i < j → l !! i = Some a → l !! j = Some b → R a b.
Proof.
  intros Hl. revert i j. induction Hl as [|x l Hx Hl IH]; intros i j Hij Hi Hj.
  - by rw lookup_nil in Hi.
  - destruct j as [|j]; [lia|]. destruct i as [|i]; simpl in *.
    + injection Hi as ->. rw Forall_forall in Hx. apply Hx.
      by eapply list_elem_of_lookup_2.
    + apply (IH i j); [lia|done..].
Qed.

Lemma ForallOrdPairs_weaken (R' : B → B → Prop) (l : list B) :
  (∀ a b, a ∈ l → b ∈ l → R a b → R' a b) →
  ForallOrdPairs R l → ForallOrdPairs R' l.
Proof.
  intros HR Hl. induction Hl as [|x l Hx Hl IH]; constructor.
  - rw Forall_forall in Hx. apply Forall_forall. intros y Hy.
    apply HR; [left | by right | by apply Hx].
  - apply IH. intros a b Ha Hb. apply HR; by right.
Qed.
End OrdPairs.

Lemma ForallOrdPairs_fmap {B C} (g : B → C) (R : C → C → Prop) (l : list B) :
  ForallOrdPairs (λ a b, R (g a) (g b)) l → ForallOrdPairs R (g <$> l).
Proof.
  induction 1 as [|x l Hx Hl IH]; constructor; [|done].
  by apply Forall_fmap.
Qed.

(** ** Enumerator: what a matching covers *)

Section EnumeratorCoverage.
Context {A : Type}.
Implicit Types (people remaining : list A) (m : pairing (A:=A)).

Lemma members_cons p m : members (p :: m) = p.1 :: p.2 :: members m.
Proof. done. Qed.

Lemma has_pair_members m p : has_pair m p → p.1 ∈ members m ∧ p.2 ∈ members m.
Proof.
  intros [Hp|Hp]; split; apply list_elem_of_bind; eexists; (split; [|exact Hp]);
    simpl; set_solver.
Qed.

Lemma elem_of_generate_step first_person remaining m :
  m ∈ mjoin (imap (λ i partner,
                     (λ sub_pairing, (first_person, partner) :: sub_pairing)
                       <$> generate_pairings_for_even_group
                             (without i remaining))
                  remaining) →
  ∃ i partner sub,
    remaining !! i = Some partner ∧ m = (first_person, partner) :: sub ∧
    sub ∈ generate_pairings_for_even_group (without i remaining).
Proof.
  intros (block & Hm & Hblock)%list_elem_of_join.
  apply elem_of_lookup_imap in Hblock as (i & partner & -> & Hi).
  apply list_elem_of_fmap in Hm as (sub & -> & Hsub). by exists i, partner, sub.
Qed.

(** Every matching of a group names each of its members once. *)
Lemma members_generate n people m :
  length people ≤ n →
  m ∈ generate_pairings_for_even_group people → members m ≡ₚ people.
Proof.
  revert people m. induction n as [|n IH]; intros people m Hn;
    rw generate_pairings_for_even_group_eq.
  - destruct people; [|simpl in Hn; lia]. by intros ->%list_elem_of_singleton.
  - destruct people as [|a [|b [|c l]]].
    + by intros ->%list_elem_of_singleton.
    + by intros ?%elem_of_nil.
    + by intros ->%list_elem_of_singleton.
    + intros (i & partner & sub & Hi & -> & Hsub)%elem_of_generate_step.
      rw members_cons /=. constructor.
      trans (partner :: without i (b :: c :: l));
        [|by symmetry; apply without_Permutation].
      constructor. apply IH; [|done].
      apply length_without in Hi. simpl in *. lia.
Qed.

(** Two matchings that start with a pair of the same first person, who
    occurs nowhere else, have the same pair set only if they pair that
    person alike and agree on the rest. *)
Lemma same_pair_set_cons_inv first_person x y m1 m2 :
  first_person ∉ members m1 → first_person ∉ members m2 →
  same_pair_set ((first_person, x) :: m1) ((first_person, y) :: m2) →
  x = y ∧ same_pair_set m1 m2.
Proof.
  intros H1 H2 [H12 H21].
  assert (∀ z m m', first_person ∉ members m →
            Forall (has_pair ((first_person, z) :: m')) m →
            Forall (has_pair m') m) as Hrest.
  { intros z m m' Hm Hall. apply Forall_forall. intros q Hq.
    rw Forall_forall in Hall. specialize (Hall q Hq).
    assert (q.1 ≠ first_person ∧ q.2 ≠ first_person) as [Hq1 Hq2].
    { split; intros <-; apply Hm, (has_pair_members m q); by left. }
    destruct Hall as [[?|Hin]%elem_of_cons|[?|Hin]%elem_of_cons];
      simplify_eq/=; first [done | by left | by right]. }
  split.
  - apply Forall_cons_1 in H12 as [Hhead _].
    destruct Hhead as [[[=]|Hin]%elem_of_cons|[[=]|Hin]%elem_of_cons];
      simpl in *; [done | | congruence |].
    + destruct H2. apply (has_pair_members m2 (first_person, x)). by left.
    + destruct H2. apply (has_pair_members m2 (x, first_person)). by left.
  - apply Forall_cons_1 in H12 as [_ H12]. apply Forall_cons_1 in H21 as [_ H21].
    split; eauto.
Qed.

(** No two matchings returned for a duplicate-free group have the same
    set of unordered pairs. *)
Lemma generate_distinct n people :
  length people ≤ n → NoDup people →
  ForallOrdPairs (λ m1 m2, ¬ same_pair_set m1 m2)
                 (generate_pairings_for_even_group people).
Proof.
  revert people. induction n as [|n IH]; intros people Hn Hnodup;
    rw generate_pairings_for_even_group_eq.
  - destruct people; [|simpl in Hn; lia]. repeat constructor.
  - destruct people as [|a [|b [|c l]]]; [repeat constructor..|].
    apply NoDup_cons in Hnodup as [Ha Hnodup].
    assert (∀ i x sub, (b :: c :: l) !! i = Some x →
              sub ∈ generate_pairings_for_even_group (without i (b :: c :: l)) →
              a ∉ members sub) as Hfresh.
    { intros i x sub Hi Hsub Hin. apply Ha.
      apply (elem_of_Permutation_proper a _ _ (without_Permutation _ _ _ Hi)).
      right. eapply elem_of_Permutation_proper; [|exact Hin].
      symmetry. apply (members_generate n); [|done].
      apply length_without in Hi. simpl in *. lia. }
    apply ForallOrdPairs_join_imap.
    + intros i x Hi. apply ForallOrdPairs_fmap.
      eapply ForallOrdPairs_weaken; last apply (IH (without i (b :: c :: l))).
      * intros m1 m2 Hm1 Hm2 Hdiff Hsame. apply Hdiff.
        by apply same_pair_set_cons_inv in Hsame as [_ ?];
          [|apply (Hfresh i x)..].
      * apply length_without in Hi. simpl in *. lia.
      * apply (NoDup_Permutation_proper _ _ (without_Permutation _ _ _ Hi))
          in Hnodup. by apply NoDup_cons in Hnodup as [_ ?].
    + intros i j x y m1 m2 Hij Hi Hj (sub1 & -> & Hsub1)%list_elem_of_fmap
        (sub2 & -> & Hsub2)%list_elem_of_fmap Hsame.
      apply same_pair_set_cons_inv in Hsame as [-> _];
        [|by apply (Hfresh i x)|by apply (Hfresh j y)].
      pose proof (NoDup_lookup _ _ _ _ Hnodup Hi Hj). lia.
Qed.

End EnumeratorCoverage.

(** ** Enumerator: the solutions returned *)

Section EnumeratorSolutions.
Context {A : Type} `{EqDecision A}.
Implicit Types (people : list A) (s : solution (A:=A)).

(** From two people on, the shortcuts are instances of the general
    algorithm. *)
Lemma get_all_possible_pairings_general people :
  2 ≤ length people →
  get_all_possible_pairings people = general_pairings people.
Proof.
  destruct people as [|a [|b [|c [|d l]]]]; simpl; intros Hlen;
    [lia | lia | done..].
Qed.

Lemma get_all_possible_pairings_short people :
  length people < 2 → get_all_possible_pairings people = [].
Proof. destruct people as [|a [|b l]]; simpl; [done | done | lia]. Qed.

Lemma get_all_possible_pairings_even people k :
  1 ≤ k → length people = 2 * k →
  get_all_possible_pairings people =
    (λ pairing, (pairing, [])) <$> generate_pairings_for_even_group people.
Proof.
  intros Hk Hlen. rw get_all_possible_pairings_general; [lia|].
  unfold general_pairings. rw bool_decide_false //.
  rw Hlen Nat.mul_comm Nat.Div0.mod_mul. lia.
Qed.

Lemma get_all_possible_pairings_odd people k :
  1 ≤ k → length people = 2 * k + 1 →
  get_all_possible_pairings people =
    mjoin (imap (λ i left_out_person,
                   (λ pairing, (pairing, [left_out_person]))
                     <$> generate_pairings_for_even_group (without i people))
                people).
Proof.
  intros Hk Hlen. rw get_all_possible_pairings_general; [lia|].
  unfold general_pairings. rw bool_decide_true //.
  rw Hlen Nat.add_comm Nat.mul_comm Nat.Div0.mod_add. done.
Qed.

Lemma same_pair_set_sym (m1 m2 : pairing (A:=A)) :
  same_pair_set m1 m2 → same_pair_set m2 m1.
Proof. by intros [??]. Qed.

Lemma filter_left_out_block p x (block : list (pairing (A:=A))) :
  filter (λ s, s.2 = [p]) ((λ pairing, (pairing, [x])) <$> block) =
    if bool_decide (x = p) then (λ pairing, (pairing, [x])) <$> block else [].
Proof.
  induction block as [|m block IH]; [by case_bool_decide|].
  rw fmap_cons filter_cons IH /=.
  case_bool_decide; case_decide; simplify_eq/=; done.
Qed.

(** Among blocks of [c] solutions, one per position of [l] and each
    leaving out the person at that position, a person is the leftover
    [c] times for each of their occurrences in [l]. *)
Lemma length_filter_left_out p c (l : list A)
    (G : nat → A → list (pairing (A:=A))) :
  (∀ i x, l !! i = Some x → length (G i x) = c) →
  length (filter (λ s, s.2 = [p])
            (mjoin (imap (λ i x, (λ pairing, (pairing, [x])) <$> G i x) l))) =
    c * length (filter (λ x, x = p) l).
Proof.
  revert G. induction l as [|x l IH]; intros G HG; [simpl; lia|].
  rw imap_cons /= filter_app length_app filter_left_out_block filter_cons.
  rw (IH (λ i, G (S i))); [by intros i y Hi; apply (HG (S i))|].
  case_bool_decide; case_decide; try done; simpl;
    rw ?length_fmap ?(HG 0 x) //; lia.
Qed.

Lemma length_filter_NoDup p (l : list A) :
  NoDup l → p ∈ l → length (filter (λ x, x = p) l) = 1.
Proof.
  induction 1 as [|x l Hx Hl IH]; [by intros ?%elem_of_nil|].
  intros Hp. rw filter_cons. case_decide as Hxp.
  - subst x. simpl. f_equal. apply length_zero_iff_nil.
    destruct (filter _ l) as [|y ?] eqn:Hf; [done|].
    assert (y ∈ filter (λ x, x = p) l) as [-> ?]%list_elem_of_filter
      by (rw Hf; left). done.
  - apply IH. apply elem_of_cons in Hp as [->|]; done.
Qed.

End EnumeratorSolutions.

(** ** Enumerator: the specified properties *)

Section EnumeratorSpec.
Context {A : Type} `{EqDecision A}.
Implicit Types (people : list A) (s : solution (A:=A)).

(** C1. A duplicate-free list of [2k] people, [k >= 1], has exactly
    [(2k-1)!!] solutions, each with an empty leftover list, and two
    solutions at different positions never have the same set of
    unordered pairs; a list of fewer than two people has no solution. *)
Theorem even_group_solutions people :
  (length people < 2 → get_all_possible_pairings people = []) ∧
  (∀ k, 1 ≤ k → length people = 2 * k → NoDup people →
     length (get_all_possible_pairings people) = double_fact (2 * k - 1) ∧
     (∀ s, s ∈ get_all_possible_pairings people → s.2 = []) ∧
     (∀ i j s1 s2,
        get_all_possible_pairings people !! i = Some s1 →
        get_all_possible_pairings people !! j = Some s2 →
        same_pair_set s1.1 s2.1 → i = j)).
Proof.
  split; [apply get_all_possible_pairings_short|].
  intros k Hk Hlen Hnodup. rw (get_all_possible_pairings_even people k) //.
    split; [|split].
    + rw length_fmap. by apply length_generate.
    + by intros s (m & -> & _)%list_elem_of_fmap.
    + pose proof (generate_distinct (length people) people (le_n _) Hnodup)
        as Hdistinct.
      apply (ForallOrdPairs_fmap (λ pairing, (pairing, @nil A))
               (λ s1 s2, ¬ same_pair_set s1.1 s2.1)) in Hdistinct.
      intros i j s1 s2 Hi Hj Hsame.
      destruct (Nat.lt_total i j) as [Hij|[Hij|Hij]]; [|done|].
      * destruct (ForallOrdPairs_lookup _ _ i j s1 s2 Hdistinct); done.
      * destruct (ForallOrdPairs_lookup _ _ j i s2 s1 Hdistinct); try done.
        by apply same_pair_set_sym.
Qed.

(** C2. A duplicate-free list of [2k+1] people, [k >= 1], has exactly
    [(2k+1) * (2k-1)!!] solutions, and each of the people is the sole
    leftover of exactly [(2k-1)!!] of them. *)
Theorem odd_group_solutions people k :
  1 ≤ k → length people = 2 * k + 1 → NoDup people →
  length (get_all_possible_pairings people)
    = (2 * k + 1) * double_fact (2 * k - 1) ∧
  (∀ p, p ∈ people →
     length (filter (λ s, s.2 = [p]) (get_all_possible_pairings people))
       = double_fact (2 * k - 1)).
Proof.
  intros Hk Hlen Hnodup. rw (get_all_possible_pairings_odd people k) //.
  assert (∀ i x, people !! i = Some x →
            length (generate_pairings_for_even_group (without i people))
              = double_fact (2 * k - 1)) as Hblock.
  { intros i x Hi. apply length_generate. apply length_without in Hi. lia. }
  split.
  - rw (length_concat_imap _ _ (double_fact (2 * k - 1))); [|by rw Hlen].
    intros i x Hi. rw length_fmap. eauto.
  - intros p Hp.
    rw (length_filter_left_out p (double_fact (2 * k - 1)) people
          (λ i _, generate_pairings_for_even_group (without i people))) //.
    rw length_filter_NoDup //. lia.
Qed.

(** C3. In every solution returned for a duplicate-free list, the people
    in the pairs followed by the leftover list are a rearrangement of the
    input without repetition: everybody is in exactly one pair or exactly
    once in the leftover list, and nobody occurs twice. *)
Theorem solution_covers_once people s :
  NoDup people → s ∈ get_all_possible_pairings people →
  participants s ≡ₚ people ∧ NoDup (participants s).
Proof.
  intros Hnodup Hs.
  assert (participants s ≡ₚ people) as Hperm; [|split; [done|by rw Hperm]].
  destruct (decide (length people < 2)) as [Hshort|Hlong].
  { rw get_all_possible_pairings_short // in Hs. by apply elem_of_nil in Hs. }
  rw get_all_possible_pairings_general in Hs; [lia|].
  unfold general_pairings in Hs. case_bool_decide.
  - apply list_elem_of_join in Hs as (block & Hs & Hblock).
    apply elem_of_lookup_imap in Hblock as (i & x & -> & Hi).
    apply list_elem_of_fmap in Hs as (m & -> & Hm).
    unfold participants. simpl.
    rw (members_generate _ _ m (le_n _) Hm) -Permutation_cons_append.
    symmetry. by apply without_Permutation.
  - apply list_elem_of_fmap in Hs as (m & -> & Hm).
    unfold participants. simpl. rw app_nil_r.
    by apply (members_generate (length people)).
Qed.

(** C9. On two or three people the shortcut branches return the very
    list of solutions, in the same order, that the general algorithm
    computes; the same sets of pairs and leftovers in particular. *)
Theorem shortcuts_agree_with_general people :
  length people = 2 ∨ length people = 3 →
  get_all_possible_pairings people = general_pairings people.
Proof. intros [Hlen|Hlen]; apply get_all_possible_pairings_general; lia. Qed.

End EnumeratorSpec.

(** Four people: three matchings, as [3!! = 3]. *)
Lemma even_group_solutions_witness :
  length [1; 2; 3; 4] = 2 * 2 ∧ NoDup [1; 2; 3; 4] ∧
  length (get_all_possible_pairings [1; 2; 3; 4]) = double_fact (2 * 2 - 1) ∧
  get_all_possible_pairings [1] = [].
Proof.
  assert (NoDup [1; 2; 3; 4]) as Hnodup by (by apply (bool_decide_unpack _)).
  split; [reflexivity|]. split; [exact Hnodup|]. split.
  - apply (proj2 (even_group_solutions [1; 2; 3; 4]) 2); [lia | reflexivity | exact Hnodup].
  - apply (proj1 (even_group_solutions [1])). simpl. lia.
Defined.

(** Five people: fifteen solutions, three for each person left out. *)
Lemma odd_group_solutions_witness :
  length (get_all_possible_pairings [1; 2; 3; 4; 5]) = 15 ∧
  length (filter (λ s, s.2 = [3]) (get_all_possible_pairings [1; 2; 3; 4; 5])) = 3.
Proof.
  assert (NoDup [1; 2; 3; 4; 5]) as Hnodup by (by apply (bool_decide_unpack _)).
  assert (1 ≤ 2) as Hk by lia.
  destruct (odd_group_solutions [1; 2; 3; 4; 5] 2 Hk eq_refl Hnodup) as [Hlen Hleft].
  split; [exact Hlen|]. apply Hleft. set_solver.
Defined.

(** The second solution for three people. *)
Lemma solution_covers_once_witness :
  participants ([(1, 3)], [2]) ≡ₚ [1; 2; 3] ∧ NoDup (participants ([(1, 3)], [2])).
Proof.
  apply (solution_covers_once [1; 2; 3]).
  - by apply (bool_decide_unpack _).
  - simpl. set_solver.
Defined.

Lemma shortcuts_agree_with_general_witness :
  get_all_possible_pairings [1; 2; 3] = general_pairings [1; 2; 3] ∧
  get_all_possible_pairings [1; 2] = general_pairings [1; 2].
Proof.
  split.
  - apply shortcuts_agree_with_general. right. reflexivity.
  - apply shortcuts_agree_with_general. left. reflexivity.
Defined.

(** * Further properties of the code *)

(** ** Enumerator: pair sets *)

Section PairSets.
Context {A : Type}.
Implicit Types (m : pairing (A:=A)) (p q : A * A).

Lemma has_pair_cons m p q :
  has_pair (q :: m) p ↔ p = q ∨ p = (q.2, q.1) ∨ has_pair m p.
Proof.
  unfold has_pair. rw !elem_of_cons. destruct p as [a b], q as [c d]; simpl.
  split; [intros [[?|?]|[?|?]] | intros [?|[?|[?|?]]]]; simplify_eq/=; eauto.
Qed.

Lemma has_pair_swap m p : has_pair m (p.2, p.1) ↔ has_pair m p.
Proof. unfold has_pair. destruct p as [a b]; simpl. tauto. Qed.

Lemma has_pair_Permutation m1 m2 p : m1 ≡ₚ m2 → has_pair m1 p ↔ has_pair m2 p.
Proof. intros Hperm. unfold has_pair. by rw !Hperm. Qed.

Lemma same_pair_set_iff m1 m2 :
  same_pair_set m1 m2 ↔ ∀ p, has_pair m1 p ↔ has_pair m2 p.
Proof.
  unfold same_pair_set. rw !Forall_forall. split.
  - intros [H12 H21] p.
    split; (intros [Hp|Hp]; [|apply has_pair_swap]); eauto.
  - intros Hiff. split; intros p Hp; apply Hiff; by left.
Qed.

Lemma members_Permutation m1 m2 : m1 ≡ₚ m2 → members m1 ≡ₚ members m2.
Proof. intros Hperm. unfold members. by rw Hperm. Qed.

Lemma length_members m : length (members m) = 2 * length m.
Proof. induction m as [|p m IH]; [done|]. rw members_cons /= IH. lia. Qed.

End PairSets.

(** ** Enumerator: what is enumerated *)

Section EnumeratorMore.
Context {A : Type}.
Implicit Types (people remaining : list A) (m : pairing (A:=A))
               (s : solution (A:=A)).

Lemma generate_pairings_for_even_group_cons first_person remaining :
  generate_pairings_for_even_group (first_person :: remaining) =
    mjoin (imap (λ i partner,
                   (λ sub_pairing, (first_person, partner) :: sub_pairing)
                     <$> generate_pairings_for_even_group (without i remaining))
                remaining).
Proof.
  destruct remaining as [|b [|c l]]; [done | done |].
  by rw generate_pairings_for_even_group_eq.
Qed.

(** X1. The shortcut of [generate_pairings_for_even_group] for two people is
    an instance of its general step: on every non-empty list the function
    pairs the first person with each of the others in turn and recurses on
    the rest. *)
Theorem generate_pairs_first_person first_person remaining :
  generate_pairings_for_even_group (first_person :: remaining) =
    mjoin (imap (λ i partner,
                   (λ sub_pairing, (first_person, partner) :: sub_pairing)
                     <$> generate_pairings_for_even_group (without i remaining))
                remaining).
Proof. apply generate_pairings_for_even_group_cons. Qed.

Lemma join_imap_nil {B C} (f : nat → B → list C) (l : list B) :
  (∀ i x, l !! i = Some x → f i x = []) → mjoin (imap f l) = [].
Proof.
  intros Hf. apply length_zero_iff_nil.
  rw (length_concat_imap f l 0); [|lia].
  intros i x Hi. by rw (Hf i x).
Qed.

(** X2. A group of odd size has no matching: the function returns the empty
    list. *)
Theorem generate_odd_group people k :
  length people = 2 * k + 1 → generate_pairings_for_even_group people = [].
Proof.
  revert people. induction k as [|k IH]; intros people Hlen.
  - by destruct people as [|a [|b l]].
  - destruct people as [|a remaining]; [done|].
    rw generate_pairings_for_even_group_cons. apply join_imap_nil. intros i x Hi.
    rw IH //. apply length_without in Hi. simpl in *. lia.
Qed.

Lemma elem_of_generate_cons first_person remaining i partner sub :
  remaining !! i = Some partner →
  sub ∈ generate_pairings_for_even_group (without i remaining) →
  (first_person, partner) :: sub
    ∈ generate_pairings_for_even_group (first_person :: remaining).
Proof.
  intros Hi Hsub. rw generate_pairings_for_even_group_cons. apply list_elem_of_join.
  exists ((λ sub_pairing, (first_person, partner) :: sub_pairing)
            <$> generate_pairings_for_even_group (without i remaining)).
  split; [by apply list_elem_of_fmap_2|].
  apply elem_of_lookup_imap. by exists i, partner.
Qed.

Lemma generate_complete_aux n people m :
  length people ≤ n → NoDup people → members m ≡ₚ people →
  ∃ m', m' ∈ generate_pairings_for_even_group people ∧ same_pair_set m m'.
Proof.
  revert people m. induction n as [|n IH]; intros people m Hn Hnodup Hm.
  { destruct people; [|simpl in Hn; lia]. apply Permutation_nil_r in Hm.
    destruct m; [|done]. exists []. split; [by left|]. by split. }
  destruct people as [|first_person remaining].
  { apply Permutation_nil_r in Hm. destruct m; [|done].
    exists []. split; [by left|]. by split. }
  apply NoDup_cons in Hnodup as [Hfirst Hnodup].
  assert (first_person ∈ members m) as Hin by (rw Hm; left).
  apply list_elem_of_bind in Hin as (p & Hp & Hpm).
  apply elem_of_Permutation in Hpm as [rest Hrest].
  pose proof (members_Permutation _ _ Hrest) as Hmembers.
  rw members_cons Hm in Hmembers.
  assert (∃ partner, (p = (first_person, partner) ∨ p = (partner, first_person))
                     ∧ partner :: members rest ≡ₚ remaining)
    as (partner & Hshape & Hperm).
  { destruct p as [a b]. simpl in *.
    apply elem_of_cons in Hp as [->|Hp%list_elem_of_singleton].
    - exists b. split; [by left|]. symmetry. by eapply Permutation_cons_inv.
    - subst b. exists a. split; [by right|]. symmetry.
      eapply Permutation_cons_inv. etrans; [exact Hmembers | apply perm_swap]. }
  assert (partner ∈ remaining) as [i Hi]%list_elem_of_lookup by (rw -Hperm; left).
  pose proof (without_Permutation _ _ _ Hi) as Hwithout.
  destruct (IH (without i remaining) rest) as (sub & Hsub & Hsame).
  - apply length_without in Hi. simpl in Hn. lia.
  - rw Hwithout in Hnodup. by apply NoDup_cons in Hnodup as [_ ?].
  - apply (Permutation_cons_inv (a:=partner)). by rw Hperm -Hwithout.
  - exists ((first_person, partner) :: sub).
    split; [by apply (elem_of_generate_cons _ _ i)|].
    apply same_pair_set_iff. intros q.
    rw (has_pair_Permutation _ _ q Hrest) !has_pair_cons.
    rw (proj1 (same_pair_set_iff rest sub) Hsame q).
    destruct Hshape as [->| ->]; simpl; tauto.
Qed.

(** X3. Completeness of the matching enumeration: whichever way a
    duplicate-free group is split into pairs, the function returns a
    matching with exactly those unordered pairs. *)
Theorem generate_complete people m :
  NoDup people → members m ≡ₚ people →
  ∃ m', m' ∈ generate_pairings_for_even_group people ∧ same_pair_set m m'.
Proof. by apply (generate_complete_aux (length people)). Qed.

End EnumeratorMore.

Section SolutionsMore.
Context {A : Type}.
Implicit Types (people : list A) (m : pairing (A:=A)) (s : solution (A:=A)).

Lemma mod_2_even n k : n = 2 * k → n `mod` 2 = 0.
Proof. intros ->. by rw Nat.mul_comm Nat.Div0.mod_mul. Qed.

Lemma mod_2_odd n k : n = 2 * k + 1 → n `mod` 2 = 1.
Proof. intros ->. by rw Nat.add_comm Nat.mul_comm Nat.Div0.mod_add. Qed.

(** X4. Completeness of the enumerator: whichever way two or more distinct
    people are split into pairs and at most one leftover, a solution with
    exactly those unordered pairs and that leftover is returned. *)
Theorem every_split_is_enumerated people m left_out :
  2 ≤ length people → NoDup people → length left_out ≤ 1 →
  members m ++ left_out ≡ₚ people →
  ∃ s, s ∈ get_all_possible_pairings people ∧
       same_pair_set m s.1 ∧ s.2 = left_out.
Proof.
  intros Hlen Hnodup Hleft Hsplit. rw get_all_possible_pairings_general //.
  pose proof (Permutation_length Hsplit) as Hcount.
  rw length_app length_members in Hcount. unfold general_pairings.
  destruct left_out as [|x [|y left_out]]; [| |simpl in Hleft; lia].
  - rw bool_decide_false.
    { rw (mod_2_even _ (length m)); [simpl in Hcount|]; lia. }
    rw app_nil_r in Hsplit.
    destruct (generate_complete_aux _ people m (le_n _) Hnodup Hsplit)
      as (m' & Hm' & Hsame).
    exists (m', []). split; [|done].
    by apply (list_elem_of_fmap_2 (λ pairing, (pairing, []))).
  - rw bool_decide_true.
    { apply (mod_2_odd _ (length m)). simpl in Hcount. lia. }
    assert (x ∈ people) as [i Hi]%list_elem_of_lookup
      by (rw -Hsplit; set_solver).
    pose proof (without_Permutation _ _ _ Hi) as Hwithout.
    destruct (generate_complete_aux (length (without i people))
                (without i people) m) as (m' & Hm' & Hsame); [done| |..].
    + rw Hwithout in Hnodup. by apply NoDup_cons in Hnodup as [_ ?].
    + apply (Permutation_cons_inv (a:=x)).
      by rw -Hwithout -Hsplit -Permutation_cons_append.
    + exists (m', [x]). split; [|done]. apply list_elem_of_join.
      exists ((λ pairing, (pairing, [x]))
                <$> generate_pairings_for_even_group (without i people)).
      split; [by apply (list_elem_of_fmap_2 (λ pairing, (pairing, [x])))|].
      apply elem_of_lookup_imap. by exists i, x.
Qed.

Lemma elem_of_general_pairings people s :
  s ∈ general_pairings people →
  (length people `mod` 2 = 1 ∧
   ∃ i x, people !! i = Some x ∧ s.2 = [x] ∧
          s.1 ∈ generate_pairings_for_even_group (without i people)) ∨
  (length people `mod` 2 = 0 ∧ s.2 = [] ∧
   s.1 ∈ generate_pairings_for_even_group people).
Proof.
  unfold general_pairings. case_bool_decide as Hodd; intros Hs.
  - left. split; [done|].
    apply list_elem_of_join in Hs as (block & Hs & Hblock).
    apply elem_of_lookup_imap in Hblock as (i & x & -> & Hi).
    apply list_elem_of_fmap in Hs as (m & -> & Hm). by exists i, x.
  - right. apply list_elem_of_fmap in Hs as (m & -> & Hm).
    pose proof (Nat.mod_upper_bound (length people) 2). split; [lia|done].
Qed.

(** X5. The shape of a solution, duplicates or not: the leftover list has one
    person when the number of people is odd and nobody when it is even,
    and the pairs take all the others, two by two. *)
Theorem solution_shape people s :
  s ∈ get_all_possible_pairings people →
  length s.2 = length people `mod` 2 ∧
  2 * length s.1 + length s.2 = length people.
Proof.
  intros Hs. destruct (decide (length people < 2)) as [Hshort|Hlong].
  { rw get_all_possible_pairings_short // in Hs. by apply elem_of_nil in Hs. }
  rw get_all_possible_pairings_general in Hs; [lia|].
  apply elem_of_general_pairings in Hs
    as [(Hodd & i & x & Hi & -> & Hm)|(Heven & -> & Hm)].
  - apply (members_generate _ _ _ (le_n _)) in Hm.
    apply Permutation_length in Hm. rw length_members in Hm.
    apply length_without in Hi. cbn [length]. lia.
  - apply (members_generate _ _ _ (le_n _)) in Hm.
    apply Permutation_length in Hm. rw length_members in Hm. cbn [length]. lia.
Qed.

Lemma double_fact_pos n : 0 < double_fact n.
Proof.
  induction n as [n IH] using (well_founded_induction lt_wf).
  destruct n as [|[|n]]; [simpl; lia..|].
  cbn [double_fact]. specialize (IH n). lia.
Qed.

Lemma get_all_possible_pairings_nonempty people :
  2 ≤ length people → get_all_possible_pairings people ≠ [].
Proof.
  intros Hlong Hnil%length_zero_iff_nil.
  rw get_all_possible_pairings_general in Hnil; [lia|].
  unfold general_pairings in Hnil.
  pose proof (Nat.div_mod_eq (length people) 2) as Hdiv.
  pose proof (double_fact_pos (2 * (length people `div` 2) - 1)) as Hpos.
  case_bool_decide as Hodd.
  - rw (length_concat_imap _ _ (double_fact (2 * (length people `div` 2) - 1)))
      in Hnil; [|nia].
    intros i x Hi. rw length_fmap. apply length_generate.
    apply length_without in Hi. lia.
  - pose proof (Nat.mod_upper_bound (length people) 2).
    rw length_fmap (length_generate (length people `div` 2)) in Hnil; lia.
Qed.

(** X6. There is no solution exactly when there are fewer than two people. *)
Theorem no_solution_iff_short people :
  get_all_possible_pairings people = [] ↔ length people < 2.
Proof.
  split; [|apply get_all_possible_pairings_short]. intros Hnil.
  destruct (decide (length people < 2)) as [|Hlong]; [done|].
  destruct (get_all_possible_pairings_nonempty people); [lia|done].
Qed.

Lemma participants_get_all people s :
  s ∈ get_all_possible_pairings people → participants s ≡ₚ people.
Proof.
  intros Hs. destruct (decide (length people < 2)) as [Hshort|Hlong].
  { rw get_all_possible_pairings_short // in Hs. by apply elem_of_nil in Hs. }
  rw get_all_possible_pairings_general in Hs; [lia|].
  destruct s as [m left_out]. unfold participants.
  apply elem_of_general_pairings in Hs
    as [(_ & i & x & Hi & Hleft & Hm)|(_ & Hleft & Hm)]; simpl in *; subst.
  - rw (members_generate _ _ m (le_n _) Hm) -Permutation_cons_append.
    symmetry. by apply without_Permutation.
  - rw app_nil_r. by apply (members_generate (length people)).
Qed.

Lemma singleton_sublist (x : A) (l : list A) : x ∈ l → [x] `sublist_of` l.
Proof.
  induction 1 as [x l|x y l Hx IH].
  - apply sublist_skip, sublist_nil_l.
  - by apply sublist_cons.
Qed.

Lemma generate_order n people m a b :
  length people ≤ n → m ∈ generate_pairings_for_even_group people →
  (a, b) ∈ m → [a; b] `sublist_of` people.
Proof.
  revert people m. induction n as [|n IH]; intros people m Hn.
  { destruct people; [|simpl in Hn; lia].
    intros ->%list_elem_of_singleton []%elem_of_nil. }
  destruct people as [|first_person remaining].
  { intros ->%list_elem_of_singleton []%elem_of_nil. }
  rw generate_pairings_for_even_group_cons.
  intros (i & partner & sub & Hi & -> & Hsub)%elem_of_generate_step
    [[= -> ->]|Hin]%elem_of_cons.
  - apply sublist_skip, singleton_sublist. by eapply list_elem_of_lookup_2.
  - apply sublist_cons. trans (without i remaining).
    + apply (IH _ sub); [|done..]. apply length_without in Hi. simpl in Hn. lia.
    + rw without_delete. apply sublist_delete.
Qed.

(** X7. Pairs follow the order of the input: in every pair of every solution
    the first member stands before the second in the list of people. *)
Theorem pairs_follow_input_order people s a b :
  s ∈ get_all_possible_pairings people → (a, b) ∈ s.1 →
  [a; b] `sublist_of` people.
Proof.
  intros Hs Hab. destruct (decide (length people < 2)) as [Hshort|Hlong].
  { rw get_all_possible_pairings_short // in Hs. by apply elem_of_nil in Hs. }
  rw get_all_possible_pairings_general in Hs; [lia|].
  apply elem_of_general_pairings in Hs
    as [(_ & i & x & Hi & _ & Hm)|(_ & _ & Hm)].
  - trans (without i people).
    + by apply (generate_order _ _ s.1 _ _ (le_n _)).
    + rw without_delete. apply sublist_delete.
  - by apply (generate_order _ _ s.1 _ _ (le_n _)).
Qed.

End SolutionsMore.

(** ** History index *)

Section HistoryIndex.
Implicit Types (key : string * string) (week : string)
               (index : gmap (string * string) (list string)).

Lemma pair_key_sym a b : pair_key a b = pair_key b a.
Proof.
  unfold pair_key, String.ltb. rw (String.compare_antisym b a).
  destruct (String.compare a b) eqn:Hab; simpl; [|done..].
  by apply String.compare_eq_iff in Hab as ->.
Qed.

Lemma pair_key_cases a b : pair_key a b = (a, b) ∨ pair_key a b = (b, a).
Proof. unfold pair_key. destruct (String.ltb b a); eauto. Qed.

Lemma pair_key_eq a b x y :
  pair_key x y = pair_key a b ↔ (x = a ∧ y = b) ∨ (x = b ∧ y = a).
Proof.
  split.
  - destruct (pair_key_cases x y) as [-> | ->],
      (pair_key_cases a b) as [-> | ->]; intros [= -> ->]; eauto.
  - intros [[-> ->]|[-> ->]]; [done|apply pair_key_sym].
Qed.

Lemma pair_key_sorted a b :
  String.ltb (pair_key a b).2 (pair_key a b).1 = false.
Proof.
  unfold pair_key. destruct (String.ltb b a) eqn:Hba; simpl; [|done].
  unfold String.ltb in *. rw String.compare_antisym.
  by destruct (String.compare b a).
Qed.

Lemma index_holds_ext index (R R' : string * string → string → Prop) :
  (∀ key week, R key week ↔ R' key week) →
  index_holds index R → index_holds index R'.
Proof.
  intros Hext Hindex key. destruct (Hindex key) as [Hne Hweeks].
  split; [done|]. intros week. by rw Hweeks.
Qed.

Lemma record_pair_holds week index pair R :
  index_holds index R →
  index_holds (record_pair week index pair)
    (λ key w, R key w ∨
              (w = week ∧ ∃ a b, pair = [a; b] ∧ pair_key a b = key)).
Proof.
  intros Hindex.
  destruct pair as [|a [|b [|c pair]]];
    try (eapply index_holds_ext; [|exact Hindex]; intros key w;
         split; [by left | by intros [?|(_ & ? & ? & [=] & _)]]).
  intros key. destruct (Hindex key) as [Hne Hweeks]. cbn [record_pair].
  destruct (decide (pair_key a b = key)) as [<-|Hkey].
  - rw lookup_partial_alter_eq. split.
    + intros [= Hnil]. by destruct (default [] _).
    + intros w. cbn [default]. rw elem_of_app list_elem_of_singleton Hweeks.
      split; [intros [?| ->]; [by left|right; eauto]|].
      intros [?|[-> _]]; eauto.
  - rw lookup_partial_alter_ne //. split; [done|].
    intros w. rw Hweeks. split; [by left|].
    by intros [?|(_ & ? & ? & [= <- <-] & ?)].
Qed.

Lemma record_week_holds week index (recorded : list (list string)) R :
  index_holds index R →
  index_holds (foldl (record_pair week) index recorded)
    (λ key w, R key w ∨
              (w = week ∧ ∃ a b, [a; b] ∈ recorded ∧ pair_key a b = key)).
Proof.
  revert index R. induction recorded as [|pair recorded IH]; intros index R Hindex.
  - eapply index_holds_ext; [|exact Hindex]. intros key w.
    split; [by left|]. by intros [?|(_ & ? & ? & []%elem_of_nil & _)].
  - cbn [foldl]. eapply index_holds_ext;
      [|apply IH, record_pair_holds, Hindex].
    intros key w. cbn beta. split.
    + intros [[?|(-> & a & b & -> & ?)]|(-> & a & b & ? & ?)].
      * by left.
      * right. split; [done|]. exists a, b. split; [left|done].
      * right. split; [done|]. exists a, b. split; [by right|done].
    + intros [?|(-> & a & b & [<- | ?]%elem_of_cons & ?)];
        [by left; left | left; right; eauto 10 | right; eauto 10].
Qed.

Lemma record_history_holds index (history : list (string * week_data)) R :
  index_holds index R →
  index_holds
    (foldl (λ pairs (item : string * week_data),
              foldl (record_pair item.1) pairs (all_pairs item.2))
           index history)
    (λ key w, R key w ∨
              ∃ w_data a b, (w, w_data) ∈ history ∧
                            [a; b] ∈ all_pairs w_data ∧ pair_key a b = key).
Proof.
  revert index R. induction history as [|[week w_data] history IH];
    intros index R Hindex.
  - eapply index_holds_ext; [|exact Hindex]. intros key w.
    split; [by left|]. by intros [?|(? & ? & ? & []%elem_of_nil & _)].
  - cbn [foldl]. eapply index_holds_ext;
      [|apply IH, record_week_holds, Hindex].
    intros key w. cbn beta. cbn [fst snd]. split.
    + intros [[?|(-> & a & b & ? & ?)]|(wd & a & b & ? & ? & ?)].
      * by left.
      * right. exists w_data, a, b. split; [left|done].
      * right. exists wd, a, b. split; [by right|done].
    + intros [?|(wd & a & b & [[= -> ->]|?]%elem_of_cons & ? & ?)];
        [by left; left | left; right; eauto | right; eauto 10].
Qed.

Lemma get_historical_pairs_holds d :
  index_holds (get_historical_pairs d)
    (λ key w, ∃ w_data a b, (w, w_data) ∈ default [] (pairings d) ∧
                            [a; b] ∈ all_pairs w_data ∧ pair_key a b = key).
Proof.
  eapply index_holds_ext;
    [|apply (record_history_holds ∅ _ (λ _ _, False))].
  - intros key w. cbn beta. split; [by intros [[]|?]|by right].
  - intros key. rw lookup_empty. split; [done|]. intros w. simpl.
    split; [by intros ?%elem_of_nil|done].
Qed.

End HistoryIndex.

Section HistoryLookup.
Implicit Types (d : data) (week : string).

Lemma recorded_either_way d a b week :
  (∃ w_data x y, (week, w_data) ∈ default [] (pairings d) ∧
                 [x; y] ∈ all_pairs w_data ∧ pair_key x y = pair_key a b) ↔
  (∃ w_data, (week, w_data) ∈ default [] (pairings d) ∧
             ([a; b] ∈ all_pairs w_data ∨ [b; a] ∈ all_pairs w_data)).
Proof.
  split.
  - intros (w_data & x & y & Hweek & Hpair & [[-> ->]|[-> ->]]%pair_key_eq);
      exists w_data; eauto.
  - intros (w_data & Hweek & [Hpair|Hpair]); exists w_data.
    + by exists a, b.
    + exists b, a. split; [done|]. split; [done|]. apply pair_key_sym.
Qed.

(** X8. A pair counts as a first meeting exactly when no week of the history
    lists the two names as a pair, in either order and under any of the
    three field names. *)
Theorem first_meeting_iff_never_recorded d a b :
  get_historical_pairs d !! pair_key a b = None ↔
  ∀ week w_data, (week, w_data) ∈ default [] (pairings d) →
                 ([a; b] ∉ all_pairs w_data) ∧ ([b; a] ∉ all_pairs w_data).
Proof.
  destruct (get_historical_pairs_holds d (pair_key a b)) as [Hne Hweeks].
  split.
  - intros Hnone week w_data Hweek.
    assert (week ∉ default [] (get_historical_pairs d !! pair_key a b))
      as Hnot by (rw Hnone; apply not_elem_of_nil).
    rw Hweeks recorded_either_way in Hnot. split; intros Hpair; apply Hnot; eauto.
  - intros Hnever.
    destruct (get_historical_pairs d !! pair_key a b) as [[|week weeks]|] eqn:Hget;
      [done| |done].
    assert (week ∈ default [] (Some (week :: weeks))) as Hin by left.
    apply Hweeks, recorded_either_way in Hin as (w_data & Hweek & Hpair).
    destruct (Hnever week w_data Hweek). tauto.
Qed.

(** X9. The weeks kept for a pair are never an empty list, and they are
    exactly the weeks of the history that list the two names as a pair, in
    either order. *)
Theorem history_weeks d a b weeks :
  get_historical_pairs d !! pair_key a b = Some weeks →
  weeks ≠ [] ∧
  ∀ week, week ∈ weeks ↔
          ∃ w_data, (week, w_data) ∈ default [] (pairings d) ∧
                    ([a; b] ∈ all_pairs w_data ∨ [b; a] ∈ all_pairs w_data).
Proof.
  intros Hget.
  destruct (get_historical_pairs_holds d (pair_key a b)) as [Hne Hweeks].
  rw Hget in Hne. rw Hget in Hweeks. split; [congruence|].
  intros week. by rw -recorded_either_way -Hweeks.
Qed.

(** X10. Every key of the index is a sorted pair of names that some week of the
    history lists as a two-element pair; entries of any other length leave
    no key. *)
Theorem history_keys_sorted d key weeks :
  get_historical_pairs d !! key = Some weeks →
  String.ltb key.2 key.1 = false ∧
  ∃ week w_data a b, (week, w_data) ∈ default [] (pairings d) ∧
                     [a; b] ∈ all_pairs w_data ∧ key = pair_key a b.
Proof.
  intros Hget. destruct (get_historical_pairs_holds d key) as [Hne Hweeks].
  rw Hget in Hne. rw Hget in Hweeks. destruct weeks as [|week weeks]; [done|].
  destruct (proj1 (Hweeks week)) as (w_data & a & b & Hweek & Hpair & <-);
    [left|].
  split; [apply pair_key_sorted|]. by exists week, w_data, a, b.
Qed.

Lemma string_compare_trans a b c :
  String.compare a b = Lt → String.compare b c = Lt → String.compare a c = Lt.
Proof.
  revert b c. induction a as [|x a IH]; intros [|y b] [|z c]; simpl; try done.
  unfold Ascii.compare.
  destruct (Ascii.N_of_ascii x ?= Ascii.N_of_ascii y)%N eqn:Hxy; [| |done];
    (destruct (Ascii.N_of_ascii y ?= Ascii.N_of_ascii z)%N eqn:Hyz; [| |done]).
  - rw (N.compare_eq _ _ Hxy) Hyz. apply IH.
  - by rw (N.compare_eq _ _ Hxy) Hyz.
  - by rw -(N.compare_eq _ _ Hyz) Hxy.
  - intros _ _. apply N.compare_lt_iff in Hxy, Hyz.
    by rw (proj2 (N.compare_lt_iff _ _) (N.lt_trans _ _ _ Hxy Hyz)).
Qed.

Lemma ltb_false_trans a b c :
  String.ltb a b = false → String.ltb b c = false → String.ltb a c = false.
Proof.
  unfold String.ltb. intros Hab Hbc.
  destruct (String.compare a c) eqn:Hac; [done| |done]. exfalso.
  destruct (String.compare b c) eqn:Hbc'; [|done|].
  - apply String.compare_eq_iff in Hbc' as ->. by rw Hac in Hab.
  - rw String.compare_antisym in Hbc'.
    destruct (String.compare c b) eqn:Hcb; try done.
    by rw (string_compare_trans a c b) in Hab.
Qed.

Lemma ltb_leb a b : String.ltb a b = false ↔ String.leb b a = true.
Proof.
  unfold String.ltb, String.leb. rw (String.compare_antisym a b).
  by destruct (String.compare b a).
Qed.

Lemma foldl_max_spec (weeks : list string) best :
  let r := foldl (λ best w, if String.ltb best w then w else best) best weeks in
  (r = best ∨ r ∈ weeks) ∧ String.ltb r best = false ∧
  ∀ w, w ∈ weeks → String.ltb r w = false.
Proof.
  revert best. induction weeks as [|x weeks IH]; intros best; cbn [foldl].
  - split; [by left|]. split; [|by intros w ?%elem_of_nil].
    unfold String.ltb. destruct (String.compare best best) eqn:Hc; try done.
    pose proof (String.compare_antisym best best) as Ha. by rw Hc in Ha.
  - cbn zeta in *.
    destruct (IH (if String.ltb best x then x else best)) as (Hin & Hbest & Hrest).
    destruct (String.ltb best x) eqn:Hlt.
    + assert (String.ltb x best = false) as Hxb.
      { unfold String.ltb in *. rw String.compare_antisym.
        by destruct (String.compare best x). }
      split; [right; destruct Hin as [-> | ?]; [left|by right]|].
      split; [by eapply ltb_false_trans|].
      intros w [-> | ?]%elem_of_cons; eauto.
    + split; [destruct Hin as [-> | ?]; [by left|by right; right]|].
      split; [done|]. intros w [-> | ?]%elem_of_cons; eauto.
      by eapply ltb_false_trans.
Qed.

(** X11. [max] of the weeks of a pair: an empty list raises [ValueError]; any
    other list yields one of its weeks, not smaller than any of them in
    the order of strings. *)
Theorem most_recent_is_greatest (weeks : list string) :
  (weeks = [] → py_max weeks = Raise ValueError) ∧
  (weeks ≠ [] →
   ∃ most_recent, py_max weeks = Ok most_recent ∧ most_recent ∈ weeks ∧
                  ∀ week, week ∈ weeks → String.leb week most_recent = true).
Proof.
  split; [by intros ->|]. destruct weeks as [|week weeks]; [done|]. intros _.
  eexists. split; [done|].
  destruct (foldl_max_spec weeks week) as (Hin & Hbest & Hrest). cbn zeta in *.
  split; [destruct Hin as [-> | ?]; [left|by right]|].
  intros w [-> | ?]%elem_of_cons; apply ltb_leb; eauto.
Qed.

End HistoryLookup.

(** ** Numbers *)

Section Rounding.

Lemma iter_pos_invariant {A} (P : A → Prop) (f : A → A) n x :
  (∀ y, P y → P (f y)) → P x → P (SpecFloat.iter_pos f n x).
Proof.
  intros Hf. revert x. induction n as [n IH|n IH|]; intros x Hx; simpl; auto.
Qed.

Lemma shr_1_nonneg mrs : (0 ≤ shr_m mrs)%Z → (0 ≤ shr_m (shr_1 mrs))%Z.
Proof. destruct mrs as [[|[p|p|]|[p|p|]] r s]; simpl; lia. Qed.

Lemma shr_fexp_nonneg m e l :
  (0 ≤ m)%Z → (0 ≤ shr_m (shr_fexp prec emax m e l).1)%Z.
Proof.
  intros Hm. unfold shr_fexp, shr.
  assert (0 ≤ shr_m (shr_record_of_loc m l))%Z as Hrecord
    by (by destruct l as [|[]]).
  destruct (_ - e)%Z; [done| |done]. simpl.
  by apply (iter_pos_invariant (λ mrs, 0 ≤ shr_m mrs)%Z), Hrecord;
    apply shr_1_nonneg.
Qed.

Lemma round_nearest_even_nonneg m l :
  (0 ≤ m)%Z → (0 ≤ round_nearest_even m l)%Z.
Proof.
  intros Hm. destruct l as [|[]]; simpl; [done| |done|lia]. case_match; lia.
Qed.

(** Rounding a non-negative mantissa never gives a NaN. *)
Lemma binary_round_aux_number sx mx ex lx :
  (0 ≤ mx)%Z → is_number (binary_round_aux prec emax sx mx ex lx).
Proof.
  intros Hmx. unfold binary_round_aux.
  pose proof (shr_fexp_nonneg mx ex lx Hmx) as H1.
  destruct (shr_fexp prec emax mx ex lx) as [mrs' e']. simpl in H1.
  pose proof (shr_fexp_nonneg _ e' loc_Exact
                (round_nearest_even_nonneg _ (loc_of_shr_record mrs') H1)) as H2.
  destruct (shr_fexp prec emax (round_nearest_even _ _) e' loc_Exact)
    as [mrs'' e'']. simpl in H2.
  destruct (shr_m mrs''); [done| |lia]. by case_match.
Qed.

Lemma binary_normalize_number m e szero :
  is_number (binary_normalize prec emax m e szero).
Proof.
  destruct m as [|m|m]; simpl; [done|..]; unfold binary_round;
    destruct (shl_align _ _ _); by apply binary_round_aux_number.
Qed.

Lemma in_range_finite x y :
  is_number x → in_range x = Ok y → y = x ∧ is_finite y.
Proof. destruct x; try done; by intros _ [= <-]. Qed.

Lemma float_of_int_finite z x : float_of_int z = Ok x → is_finite x.
Proof.
  intros Hx. by apply in_range_finite in Hx as [_ ?];
    [|apply binary_normalize_number].
Qed.

Lemma int_true_div_finite a b x : int_true_div a b = Ok x → is_finite x.
Proof.
  unfold int_true_div. case_match; [done|]. case_match; [by intros [= <-]|].
  intros Hx. by apply in_range_finite in Hx as [_ ?];
    [|apply binary_normalize_number].
Qed.

Lemma is_finite_number x : is_finite x → is_number x.
Proof. by destruct x. Qed.

(** The float operations of the scorer give a NaN on no finite
    operands. *)
Lemma SFsub_number x y :
  is_finite x → is_finite y → is_number (SFsub prec emax x y).
Proof.
  destruct x as [sx|sx| |sx mx ex], y as [sy|sy| |sy my ey]; try done;
    intros _ _.
  - by destruct sx, sy.
  - apply binary_normalize_number.
Qed.

Lemma SFmul_number x sy my ey :
  is_number x → is_number (SFmul prec emax x (S754_finite sy my ey)).
Proof.
  destruct x as [sx|sx| |sx mx ex]; try done; intros _.
  by apply binary_round_aux_number.
Qed.

Lemma SFadd_number x y :
  is_finite x → is_number y → is_number (SFadd prec emax x y).
Proof.
  destruct x as [sx|sx| |sx mx ex], y as [sy|sy| |sy my ey]; try done;
    intros _ _.
  - by destruct sx, sy.
  - apply binary_normalize_number.
Qed.

End Rounding.

Section Order.

Lemma SFcompare_antisym x y : SFcompare y x = CompOpp <$> SFcompare x y.
Proof.
  destruct x as [sx|sx| |sx mx ex], y as [sy|sy| |sy my ey]; try done;
    try (by destruct sx); try (by destruct sy); try (by destruct sx, sy).
  simpl. rw (Z.compare_antisym ex ey).
  assert (Pos.compare_cont Eq my mx = CompOpp (Pos.compare_cont Eq mx my))
    as -> by (symmetry; apply (Pos.compare_cont_antisym mx my Eq)).
  destruct sx, sy; try done; simpl; destruct (ex ?= ey)%Z; simpl; try done;
    by destruct (Pos.compare_cont Eq mx my).
Qed.

(** On floats that are numbers [<] and [<=] make a total preorder. *)
Lemma py_le_float_total x y :
  is_number x → is_number y →
  py_lt (PFloat x) (PFloat y) = false → py_le (PFloat y) (PFloat x) = true.
Proof.
  intros Hx Hy. unfold py_lt, py_le, py_compare. rw (SFcompare_antisym x y).
  destruct x, y; try done; simpl; by repeat case_match.
Qed.

Lemma py_le_float_trans x y z :
  py_le (PFloat x) (PFloat y) = true → py_le (PFloat y) (PFloat z) = true →
  py_le (PFloat x) (PFloat z) = true.
Proof.
  unfold py_le, py_compare.
  destruct x as [sx|sx| |sx mx ex], y as [sy|sy| |sy my ey],
    z as [sz|sz| |sz mz ez]; try done;
    try (by destruct sx); try (by destruct sy); try (by destruct sz);
    try (by destruct sx, sy); try (by destruct sx, sz);
    try (by destruct sy, sz); try (by destruct sx, sy, sz).
  simpl. change (Pos.compare_cont Eq) with Pos.compare.
  destruct sx, sy, sz; try done;
    destruct (Z.compare_spec ex ey), (Z.compare_spec ey ez),
             (Z.compare_spec ex ez); try done; try lia;
    destruct (Pos.compare_spec mx my), (Pos.compare_spec my mz),
             (Pos.compare_spec mx mz); try done; lia.
Qed.

(** So they do on [int]s. *)
Lemma py_le_int_total x y :
  py_lt (PInt x) (PInt y) = false → py_le (PInt y) (PInt x) = true.
Proof.
  unfold py_lt, py_le, py_compare. rw (Z.compare_antisym x y).
  by destruct (x ?= y)%Z.
Qed.

Lemma py_le_int_trans x y z :
  py_le (PInt x) (PInt y) = true → py_le (PInt y) (PInt z) = true →
  py_le (PInt x) (PInt z) = true.
Proof.
  unfold py_le, py_compare.
  destruct (Z.compare_spec x y), (Z.compare_spec y z), (Z.compare_spec x z);
    try done; lia.
Qed.

Lemma py_lt_le a b : py_lt a b = true → py_le a b = true.
Proof. unfold py_lt, py_le. by destruct (py_compare a b) as [[]|]. Qed.

End Order.

Section Overflow.

Lemma returns_or_overflows_bind {T U} (r : result T) (f : T → result U) :
  returns_or_overflows r → (∀ v, r = Ok v → returns_or_overflows (f v)) →
  returns_or_overflows (r ≫= f).
Proof. intros [[v ->]| ->] Hf; [by apply Hf | by right]. Qed.

Lemma in_range_overflows x : returns_or_overflows (in_range x).
Proof. destruct x; first [by left; eexists | by right]. Qed.

Lemma to_float_overflows a : returns_or_overflows (to_float a).
Proof. destruct a; [apply in_range_overflows | by left; eexists]. Qed.

Lemma py_add_overflows a b : returns_or_overflows (py_add a b).
Proof.
  destruct a, b; try (by left; eexists);
    (apply returns_or_overflows_bind; [apply to_float_overflows|]; intros ? _;
     apply returns_or_overflows_bind; [apply to_float_overflows|]; intros ? _;
     by left; eexists).
Qed.

Lemma py_sub_overflows a b : returns_or_overflows (py_sub a b).
Proof.
  destruct a, b; try (by left; eexists);
    (apply returns_or_overflows_bind; [apply to_float_overflows|]; intros ? _;
     apply returns_or_overflows_bind; [apply to_float_overflows|]; intros ? _;
     by left; eexists).
Qed.

Lemma py_mul_overflows a b : returns_or_overflows (py_mul a b).
Proof.
  destruct a, b; try (by left; eexists);
    (apply returns_or_overflows_bind; [apply to_float_overflows|]; intros ? _;
     apply returns_or_overflows_bind; [apply to_float_overflows|]; intros ? _;
     by left; eexists).
Qed.

Lemma int_true_div_overflows a b :
  b ≠ 0%Z → returns_or_overflows (int_true_div a b).
Proof.
  intros Hb. unfold int_true_div. rw (proj2 (Z.eqb_neq b 0)) //.
  case_match; [by left; eexists | apply in_range_overflows].
Qed.

(** A loop whose body returns or overflows does so too. *)
Lemma for_each_overflows {S T} (body : S → T → result S) (s : S) (l : list T) :
  (∀ s x, x ∈ l → returns_or_overflows (body s x)) →
  returns_or_overflows (for_each body s l).
Proof.
  revert s. induction l as [|x l IH]; intros s Hbody; [by left; eexists|].
  cbn [for_each]. apply returns_or_overflows_bind; [apply Hbody; left|].
  intros s' _. apply IH. intros s'' y Hy. apply Hbody. by right.
Qed.

(** Adding the same number over and over: when the first addition
    returns, so do all the others. *)
Lemma py_add_again acc a r : py_add acc a = Ok r → ∃ r', py_add r a = Ok r'.
Proof.
  destruct acc as [s|x], a as [k|y]; cbn [py_add to_float mbind result_bind].
  - intros [= <-]. by eexists.
  - destruct (float_of_int s); cbn [mbind result_bind]; [|done].
    intros [= <-]. by eexists.
  - destruct (float_of_int k) eqn:Hk; cbn [mbind result_bind]; [|done].
    intros [= <-]. cbn [py_add to_float mbind result_bind]. rw Hk.
    by eexists.
  - intros [= <-]. by eexists.
Qed.

End Overflow.

(** ** Scorer: the loop over the pairs *)

(** A loop over a concatenation runs the first part, then the second. *)
Lemma for_each_app {S T} (body : S → T → result S) (s : S) (l1 l2 : list T) :
  for_each body s (l1 ++ l2) = s' ← for_each body s l1; for_each body s' l2.
Proof.
  revert s. induction l1 as [|x l1 IH]; intros s; [done|].
  cbn [app for_each]. destruct (body s x) as [s1|e]; cbn [mbind result_bind];
    [apply IH | done].
Qed.

Section ScorerPairs.
Variable historical_pairs : gmap (string * string) (list string).
Variable target_week : string.
Implicit Types (score : pynum) (b : breakdown) (pair : string * string).

(** What one step of the loop does, by the case of the pair. *)
Lemma score_pair_first_time w score b pair :
  historical_pairs !! pair_key pair.1 pair.2 = None →
  score_pair w historical_pairs target_week (score, b) pair
    = score' ← py_add score (first_time_meeting w);
      Ok (score', count_first_time b).
Proof. unfold score_pair. by intros ->. Qed.

Lemma score_pair_met w score b pair last_weeks most_recent ago :
  historical_pairs !! pair_key pair.1 pair.2 = Some last_weeks →
  py_max last_weeks = Ok most_recent →
  weeks_ago target_week most_recent = Ok ago →
  score_pair w historical_pairs target_week (score, b) pair
    = if (ago <=? 2)%Z then
        score' ← py_add score (recent_pairing_penalty w);
        Ok (score', count_recent b)
      else if (ago <=? 4)%Z then
        score' ← py_add score (old_pairing_penalty w);
        Ok (score', count_old b)
      else Ok (score, b).
Proof.
  unfold score_pair. intros -> ->. cbn [mbind result_bind]. by intros ->.
Qed.

(** The loop over the pairs never touches the fairness entry nor the
    number of pairs. *)
Lemma score_pair_keeps w score b pair score' b' :
  score_pair w historical_pairs target_week (score, b) pair = Ok (score', b') →
  fairness_score b' = fairness_score b ∧ total_pairs b' = total_pairs b.
Proof.
  unfold score_pair.
  destruct (historical_pairs !! _) as [last_weeks|].
  - destruct (py_max last_weeks) as [most_recent|]; cbn [mbind result_bind];
      [|done].
    destruct (weeks_ago target_week most_recent) as [ago|];
      cbn [mbind result_bind]; [|done].
    repeat case_match; try (by intros [= _ <-]);
      destruct (py_add _ _); cbn [mbind result_bind]; by intros [= _ <-].
  - destruct (py_add _ _); cbn [mbind result_bind]; by intros [= _ <-].
Qed.

Lemma for_each_score_pair_keeps w pairs score b score' b' :
  for_each (score_pair w historical_pairs target_week) (score, b) pairs
    = Ok (score', b') →
  fairness_score b' = fairness_score b ∧ total_pairs b' = total_pairs b.
Proof.
  revert score b. induction pairs as [|pair pairs IH]; intros score b;
    cbn [for_each].
  - by intros [= _ ->].
  - destruct (score_pair w historical_pairs target_week (score, b) pair)
      as [[score1 b1]|e] eqn:Hstep; cbn [mbind result_bind]; [|done].
    intros [Hf Ht]%IH. apply score_pair_keeps in Hstep as [Hf1 Ht1].
    split; congruence.
Qed.

(** With [int] weights the score stays an [int], and the loop does the
    same from a score shifted by [c] and a breakdown changed by a [g] that
    leaves the three counters alone. *)
Section Shift.
Variables (w : weights) (k1 k2 k3 : Z).
Hypothesis Hweights : pair_weights w k1 k2 k3.
Variables (c : Z) (g : breakdown → breakdown).
Hypothesis Hfirst : ∀ b, g (count_first_time b) = count_first_time (g b).
Hypothesis Hrecent : ∀ b, g (count_recent b) = count_recent (g b).
Hypothesis Hold : ∀ b, g (count_old b) = count_old (g b).

Lemma score_pair_shift s b pair :
  match score_pair w historical_pairs target_week (PInt s, b) pair with
  | Ok (PInt s', b') =>
      score_pair w historical_pairs target_week (PInt (s + c), g b) pair
        = Ok (PInt (s' + c), g b')
  | Ok (PFloat _, _) => False
  | Raise e =>
      score_pair w historical_pairs target_week (PInt (s + c), g b) pair
        = Raise e
  end.
Proof.
  destruct Hweights as (Hw1 & Hw2 & Hw3). unfold score_pair. rw Hw1 Hw2 Hw3.
  destruct (historical_pairs !! _) as [last_weeks|].
  - destruct (py_max last_weeks) as [most_recent|]; cbn [mbind result_bind];
      [|done].
    destruct (weeks_ago target_week most_recent) as [ago|];
      cbn [mbind result_bind]; [|done].
    destruct (ago <=? 2)%Z; [|destruct (ago <=? 4)%Z];
      cbn [py_add mbind result_bind]; rw ?Hrecent ?Hold; [| |done];
      by rw Z.add_shuffle0.
  - cbn [py_add mbind result_bind]. by rw Hfirst Z.add_shuffle0.
Qed.

Lemma for_each_score_pair_shift pairs s b :
  match for_each (score_pair w historical_pairs target_week) (PInt s, b) pairs
  with
  | Ok (PInt s', b') =>
      for_each (score_pair w historical_pairs target_week)
        (PInt (s + c), g b) pairs = Ok (PInt (s' + c), g b')
  | Ok (PFloat _, _) => False
  | Raise e =>
      for_each (score_pair w historical_pairs target_week)
        (PInt (s + c), g b) pairs = Raise e
  end.
Proof.
  revert s b. induction pairs as [|pair pairs IH]; intros s b;
    cbn [for_each]; [done|].
  pose proof (score_pair_shift s b pair) as Hstep.
  destruct (score_pair w historical_pairs target_week (PInt s, b) pair)
    as [[[s1|x] b1]|e]; [|done|]; rw Hstep; cbn [mbind result_bind];
    [apply IH | done].
Qed.

End Shift.

(** With [int] weights the score is an [int]: what the counters of the
    breakdown account for, from the start of the loop on. *)
Lemma score_pair_weighted w k1 k2 k3 s b pair score' b' :
  pair_weights w k1 k2 k3 →
  score_pair w historical_pairs target_week (PInt s, b) pair = Ok (score', b') →
  counted_pairs b' ≤ counted_pairs b + 1 ∧
  score' = PInt (s + weighted_counts k1 k2 k3 b' - weighted_counts k1 k2 k3 b).
Proof.
  intros (Hw1 & Hw2 & Hw3). unfold score_pair. rw Hw1 Hw2 Hw3.
  unfold counted_pairs, weighted_counts.
  destruct (historical_pairs !! _) as [last_weeks|].
  - destruct (py_max last_weeks) as [most_recent|]; cbn [mbind result_bind];
      [|done].
    destruct (weeks_ago target_week most_recent) as [ago|];
      cbn [mbind result_bind]; [|done].
    destruct (ago <=? 2)%Z; [|destruct (ago <=? 4)%Z];
      cbn [py_add mbind result_bind]; intros [= <- <-]; cbn;
      (split; [lia|]); f_equal; lia.
  - cbn [py_add mbind result_bind]. intros [= <- <-]. cbn.
    split; [lia|]. f_equal. lia.
Qed.

Lemma for_each_score_pair_weighted w k1 k2 k3 pairs s b score' b' :
  pair_weights w k1 k2 k3 →
  for_each (score_pair w historical_pairs target_week) (PInt s, b) pairs
    = Ok (score', b') →
  counted_pairs b' ≤ counted_pairs b + length pairs ∧
  score' = PInt (s + weighted_counts k1 k2 k3 b' - weighted_counts k1 k2 k3 b).
Proof.
  intros Hw. revert s b. induction pairs as [|pair pairs IH]; intros s b;
    cbn [for_each].
  - intros [= <- <-]. cbn [length]. split; [lia|]. f_equal. lia.
  - destruct (score_pair w historical_pairs target_week (PInt s, b) pair)
      as [[score1 b1]|e] eqn:Hstep; cbn [mbind result_bind]; [|done].
    apply (score_pair_weighted _ _ _ _ _ _ _ _ _ Hw) in Hstep as [Hc ->].
    intros [Hc' ->]%IH. cbn [length]. split; [lia|]. f_equal. lia.
Qed.

(** Whatever the weights, the counters count one pair at most a step. *)
Lemma for_each_score_pair_counted w pairs score b score' b' :
  for_each (score_pair w historical_pairs target_week) (score, b) pairs
    = Ok (score', b') →
  counted_pairs b' ≤ counted_pairs b + length pairs.
Proof.
  revert score b. induction pairs as [|pair pairs IH]; intros score b;
    cbn [for_each].
  - intros [= _ <-]. lia.
  - destruct (score_pair w historical_pairs target_week (score, b) pair)
      as [[score1 b1]|e] eqn:Hstep; cbn [mbind result_bind]; [|done].
    intros Hrest%IH. cbn [length].
    enough (counted_pairs b1 ≤ counted_pairs b + 1) by lia.
    revert Hstep. unfold score_pair, counted_pairs.
    destruct (historical_pairs !! _) as [last_weeks|].
    + destruct (py_max last_weeks) as [most_recent|];
        cbn [mbind result_bind]; [|done].
      destruct (weeks_ago target_week most_recent) as [ago|];
        cbn [mbind result_bind]; [|done].
      repeat case_match; try (intros [= _ <-]; cbn; lia);
        destruct (py_add _ _); cbn [mbind result_bind]; try done;
        intros [= _ <-]; cbn; lia.
    + destruct (py_add _ _); cbn [mbind result_bind]; [|done].
      intros [= _ <-]. cbn. lia.
Qed.

End ScorerPairs.

Section ScorerSolution.
Implicit Types (d : data) (target_week : string) (w : weights)
               (pairs : list (string * string)).

(** Without anybody left out, the result is what the loop over the pairs
    accumulates from 0, one [score_pair] step per pair. *)
Lemma score_solution_pairs_only pairs d target_week w :
  score_solution pairs [] d target_week w =
    for_each (score_pair w (get_historical_pairs d) target_week)
      (PInt 0, {| first_time_meetings := 0; recent_pairings := 0;
                  old_pairings := 0; fairness_score := PInt 0;
                  total_pairs := length pairs |}) pairs.
Proof. unfold score_solution. by destruct (for_each _ _ pairs). Qed.

Lemma pair_weights_default : pair_weights default_weights 10 (-5) (-1).
Proof. done. Qed.

(** One pair more, anywhere among the pairs: when its step adds [c] and
    changes the breakdown by [g] whatever the state, so does it change the
    result of [score_solution]. *)
Lemma score_solution_insert pairs1 pairs2 pair d target_week c g score b :
  (∀ b, g (count_first_time b) = count_first_time (g b)) →
  (∀ b, g (count_recent b) = count_recent (g b)) →
  (∀ b, g (count_old b) = count_old (g b)) →
  (∀ s b, score_pair default_weights (get_historical_pairs d) target_week
            (PInt s, b) pair = Ok (PInt (s + c), g b)) →
  score_solution (pairs1 ++ pairs2) [] d target_week default_weights
    = Ok (score, b) →
  ∃ s, score = PInt s ∧
       score_solution (pairs1 ++ pair :: pairs2) [] d target_week
         default_weights = Ok (PInt (s + c), g (one_more_pair b)).
Proof.
  intros Hfirst Hrecent Hold Hpair. rw !score_solution_pairs_only.
  rw !for_each_app !length_app. cbn [length for_each].
  rw Nat.add_succ_r.
  set (b0 := {| first_time_meetings := 0; recent_pairings := 0;
                old_pairings := 0; fairness_score := PInt 0;
                total_pairs := length pairs1 + length pairs2 |}).
  pose proof (for_each_score_pair_shift (get_historical_pairs d) target_week
                default_weights _ _ _ pair_weights_default 0 one_more_pair
                (λ _, eq_refl) (λ _, eq_refl) (λ _, eq_refl) pairs1 0 b0)
    as Hbefore.
  destruct (for_each _ (PInt 0, b0) pairs1) as [[[s1|x] b1]|e];
    cbn [mbind result_bind]; [|done..].
  change (one_more_pair b0) with
    {| first_time_meetings := 0; recent_pairings := 0;
       old_pairings := 0; fairness_score := PInt 0;
       total_pairs := S (length pairs1 + length pairs2) |} in Hbefore.
  rw Hbefore. cbn [mbind result_bind]. rw Hpair. cbn [mbind result_bind].
  pose proof (for_each_score_pair_shift (get_historical_pairs d) target_week
                default_weights _ _ _ pair_weights_default c
                (λ b, g (one_more_pair b)) (λ b, Hfirst (one_more_pair b))
                (λ b, Hrecent (one_more_pair b)) (λ b, Hold (one_more_pair b))
                pairs2 s1 b1) as Hafter.
  destruct (for_each _ (PInt s1, b1) pairs2) as [[[s2|x] b2]|e]; [|done..].
  intros [= <- <-]. exists s2. split; [done|]. by rw Z.add_0_r Hafter.
Qed.

(** C4. In what [score_solution] computes under the default weights, a
    pair without history counts 10; a pair with history counts -5 when the
    distance [weeks_ago] from its most recent week is at most 2, -1 when
    it is 3 or 4, and nothing when it is above 4: such is the difference
    that the pair makes to the score, wherever it stands among the pairs,
    and the matching counter of the breakdown is one higher. *)
Theorem pair_contribution pairs1 pairs2 pair d target_week score b :
  score_solution (pairs1 ++ pairs2) [] d target_week default_weights
    = Ok (score, b) →
  ∃ s, score = PInt s ∧
    (get_historical_pairs d !! pair_key pair.1 pair.2 = None →
       score_solution (pairs1 ++ pair :: pairs2) [] d target_week
         default_weights
         = Ok (PInt (s + 10), count_first_time (one_more_pair b))) ∧
    (∀ last_weeks most_recent ago,
       get_historical_pairs d !! pair_key pair.1 pair.2 = Some last_weeks →
       py_max last_weeks = Ok most_recent →
       weeks_ago target_week most_recent = Ok ago →
       ((ago ≤ 2)%Z →
          score_solution (pairs1 ++ pair :: pairs2) [] d target_week
            default_weights
            = Ok (PInt (s + -5), count_recent (one_more_pair b))) ∧
       ((3 ≤ ago ≤ 4)%Z →
          score_solution (pairs1 ++ pair :: pairs2) [] d target_week
            default_weights
            = Ok (PInt (s + -1), count_old (one_more_pair b))) ∧
       ((4 < ago)%Z →
          score_solution (pairs1 ++ pair :: pairs2) [] d target_week
            default_weights = Ok (PInt s, one_more_pair b))).
Proof.
  intros Hrun.
  assert (∃ s, score = PInt s) as [s ->].
  { rw score_solution_pairs_only in Hrun.
    apply (for_each_score_pair_weighted _ _ _ _ _ _ _ _ _ _ _
             pair_weights_default) in Hrun as [_ ->]. by eexists. }
  exists s. split; [done|]. split.
  - intros Hnew.
    destruct (score_solution_insert pairs1 pairs2 pair d target_week 10
                count_first_time (PInt s) b) as (s' & [= <-] & ->);
      [done..| |done|done].
    intros s0 b0. by rw score_pair_first_time.
  - intros last_weeks most_recent ago Hmet Hmax Hago.
    split; [|split]; intros Hrange.
    + destruct (score_solution_insert pairs1 pairs2 pair d target_week (-5)
                  count_recent (PInt s) b) as (s' & [= <-] & ->);
        [done..| |done|done].
      intros s0 b0. rw (score_pair_met _ _ _ _ _ _ _ _ _ Hmet Hmax Hago).
      by rw (proj2 (Z.leb_le ago 2)).
    + destruct (score_solution_insert pairs1 pairs2 pair d target_week (-1)
                  count_old (PInt s) b) as (s' & [= <-] & ->);
        [done..| |done|done].
      intros s0 b0. rw (score_pair_met _ _ _ _ _ _ _ _ _ Hmet Hmax Hago).
      rw (proj2 (Z.leb_gt ago 2)); [lia|]. by rw (proj2 (Z.leb_le ago 4)); [lia|].
    + destruct (score_solution_insert pairs1 pairs2 pair d target_week 0
                  (λ b, b) (PInt s) b) as (s' & [= <-] & Hins);
        [done..| |done|by rw Z.add_0_r in Hins].
      intros s0 b0. rw (score_pair_met _ _ _ _ _ _ _ _ _ Hmet Hmax Hago).
      rw (proj2 (Z.leb_gt ago 2)); [lia|]. rw (proj2 (Z.leb_gt ago 4)); [lia|].
      by rw Z.add_0_r.
Qed.

(** C10. When the ordinal of the pair's most recent week is greater than
    the ordinal of the target week, the distance is negative and
    [score_solution] counts the pair as a recent repeat: -5 under the
    default weights. *)
Theorem later_ordinal_counts_as_recent pairs1 pairs2 pair d target_week
    score b last_weeks most_recent current_week_num recent_week_num :
  score_solution (pairs1 ++ pairs2) [] d target_week default_weights
    = Ok (score, b) →
  get_historical_pairs d !! pair_key pair.1 pair.2 = Some last_weeks →
  py_max last_weeks = Ok most_recent →
  week_num target_week = Ok current_week_num →
  week_num most_recent = Ok recent_week_num →
  (current_week_num < recent_week_num)%Z →
  weeks_ago target_week most_recent = Ok (current_week_num - recent_week_num)%Z ∧
  (current_week_num - recent_week_num < 0)%Z ∧
  ∃ s, score = PInt s ∧
       score_solution (pairs1 ++ pair :: pairs2) [] d target_week
         default_weights
         = Ok (PInt (s + -5), count_recent (one_more_pair b)).
Proof.
  intros Hrun Hmet Hmax Hcurrent Hrecent Hlt.
  assert (weeks_ago target_week most_recent
            = Ok (current_week_num - recent_week_num)%Z) as Hago
    by (by rw /weeks_ago Hcurrent Hrecent).
  split; [done|]. split; [lia|].
  apply (score_solution_insert pairs1 pairs2 pair d target_week (-5)
           count_recent score b); [done..| |done].
  intros s0 b0. rw (score_pair_met _ _ _ _ _ _ _ _ _ Hmet Hmax Hago).
  by rw (proj2 (Z.leb_le _ 2)); [lia|].
Qed.

End ScorerSolution.

(** ** Scorer: fairness *)

Section ScorerFairness.
Implicit Types (roster : gmap string person) (left_out : list string)
               (w : weights).

Lemma with_fairness_same b : with_fairness (fairness_score b) b = b.
Proof. by destruct b. Qed.

(** One step of the loop over the people left out: the term of the
    person, then the two sums. *)
Lemma score_left_out_term w roster average score0 b0 person :
  score_left_out w roster average (score0, b0) person
    = term ← fairness_term w roster average person;
      score' ← py_add score0 term;
      total ← py_add (fairness_score b0) term;
      Ok (score', with_fairness total b0).
Proof.
  unfold score_left_out, fairness_term.
  destruct (py_sub _ _) as [fairness_diff|e]; cbn [mbind result_bind]; [|done].
  by destruct (py_mul _ _).
Qed.

(** The loop over the people left out: it returns when every term is
    computed and both running sums are, and with those sums. *)
Lemma for_each_score_left_out w roster average left_out score0 b0 score b :
  for_each (score_left_out w roster average) (score0, b0) left_out
    = Ok (score, b) ↔
  ∃ terms total,
    Forall2 (λ person term, fairness_term w roster average person = Ok term)
      left_out terms ∧
    add_all score0 terms = Ok score ∧
    add_all (fairness_score b0) terms = Ok total ∧
    b = with_fairness total b0.
Proof.
  revert score0 b0. induction left_out as [|person left_out IH];
    intros score0 b0; cbn [for_each].
  { split.
    - intros [= <- <-]. exists [], (fairness_score b0).
      by rw with_fairness_same.
    - intros (terms & total & ->%Forall2_nil_inv_l & [= <-] & [= <-] & ->).
      by rw with_fairness_same. }
  rw score_left_out_term. split.
  - destruct (fairness_term w roster average person) as [term|e] eqn:Hterm;
      cbn [mbind result_bind]; [|done].
    destruct (py_add score0 term) as [score1|e] eqn:Hscore1;
      cbn [mbind result_bind]; [|done].
    destruct (py_add (fairness_score b0) term) as [total1|e] eqn:Htotal1;
      cbn [mbind result_bind]; [|done].
    intros (terms & total & Hterms & Hscore & Htotal & ->)%IH.
    exists (term :: terms), total. split; [by constructor|].
    unfold add_all in *. cbn [for_each]. rw Hscore1 Htotal1.
    cbn [mbind result_bind]. done.
  - intros (terms' & total
            & (term & terms & Hterm & Hterms & ->)%Forall2_cons_inv_l
            & Hscore & Htotal & ->).
    unfold add_all in *. cbn [for_each] in Hscore, Htotal. rw Hterm.
    cbn [mbind result_bind].
    destruct (py_add score0 term) as [score1|e]; cbn [mbind result_bind] in *;
      [|done].
    destruct (py_add (fairness_score b0) term) as [total1|e];
      cbn [mbind result_bind] in *; [|done].
    apply IH. by exists terms, total.
Qed.

Lemma avg_left_out_active (flag : person → bool) roster :
  avg_left_out ((λ p, with_active (flag p) p) <$> roster) = avg_left_out roster.
Proof.
  unfold avg_left_out, sum_left_out. by rw map_size_fmap map_fold_fmap.
Qed.

(** C5, as the code has it.  When somebody is left out, the call returns
    exactly when the pairs are scored, the average is computed, and so
    are the term [(average - their times_left_out) * fairness_bonus] of
    every person left out and the two running sums; the score is then the
    score of the pairs with the terms added one after the other, and the
    fairness entry is their sum from 0.  Terms and sums are float
    operations, each with its rounding.  The average is the quotient of
    the whole roster, whatever the [active] flags. *)
Theorem fairness_contribution pairs left_out d target_week w score b :
  left_out ≠ [] →
  (score_solution pairs left_out d target_week w = Ok (score, b) ↔
   ∃ score0 b0 average terms total,
     score_solution pairs [] d target_week w = Ok (score0, b0) ∧
     avg_left_out (people d) = Ok average ∧
     Forall2 (λ person term,
                fairness_term w (people d) average person = Ok term)
       left_out terms ∧
     add_all score0 terms = Ok score ∧
     add_all (PInt 0) terms = Ok total ∧
     b = with_fairness total b0) ∧
  (∀ flag : person → bool,
     avg_left_out ((λ p, with_active (flag p) p) <$> people d)
       = avg_left_out (people d)).
Proof.
  intros Hleft. split; [|intros; apply avg_left_out_active].
  rw score_solution_pairs_only. unfold score_solution.
  destruct left_out as [|person left_out]; [done|].
  destruct (for_each _ _ pairs) as [[score0 b0]|e] eqn:Hpairs;
    cbn [mbind result_bind].
  2: { split; [done|]. by intros (? & ? & ? & ? & ? & ? & _). }
  apply for_each_score_pair_keeps in Hpairs as [Hzero _].
  cbn [fairness_score] in Hzero.
  destruct (avg_left_out (people d)) as [average|e]; cbn [mbind result_bind].
  2: { split; [done|]. by intros (? & ? & ? & ? & ? & _ & ? & _). }
  rw for_each_score_left_out Hzero. split.
  - intros (terms & total & Hterms & Hscore & Htotal & ->).
    by exists score0, b0, average, terms, total.
  - intros (? & ? & ? & terms & total & [= <- <-] & [= <-] & Hterms & Hscore
            & Htotal & ->).
    by exists terms, total.
Qed.

(** C6, evaluated on the code: with an empty roster and somebody left
    out, [score_solution] returns no result; once the pairs are scored
    the division of line 140 raises [ZeroDivisionError]. *)
Theorem empty_roster_raises pairs person left_out history target_week w :
  (∀ r, score_solution pairs (person :: left_out)
          {| people := ∅; pairings := history |} target_week w ≠ Ok r) ∧
  score_solution [] (person :: left_out)
    {| people := ∅; pairings := history |} target_week w
    = Raise ZeroDivisionError.
Proof.
  split; [|done]. intros r. unfold score_solution.
  destruct (for_each _ _ pairs) as [st|e]; by cbn.
Qed.

End ScorerFairness.

(** Scenarios C and D on the sample history, whose weeks are 29 and 30:
    one pair more beside Sarah and Lisa, who have not met. *)
Lemma pair_contribution_witness :
  let others := [("Sarah Brown", "Lisa Wilson")] in
  let b := {| first_time_meetings := 1; recent_pairings := 0;
              old_pairings := 0; fairness_score := PInt 0;
              total_pairs := 1 |} in
  score_solution (others ++ [("Mary Jones", "John Doe")]) [] test_data
    "2025-31" default_weights
    = Ok (PInt (10 + 10), count_first_time (one_more_pair b)) ∧
  score_solution (others ++ [("Sarah Brown", "Mary Jones")]) [] test_data
    "2025-31" default_weights
    = Ok (PInt (10 + -5), count_recent (one_more_pair b)) ∧
  score_solution (others ++ [("Peter Smith", "Mary Jones")]) [] test_data
    "2025-33" default_weights
    = Ok (PInt (10 + -1), count_old (one_more_pair b)) ∧
  score_solution (others ++ [("Mary Jones", "Peter Smith")]) [] test_data
    "2025-35" default_weights
    = Ok (PInt 10, one_more_pair b).
Proof.
  intros others b. split; [|split; [|split]].
  - destruct (pair_contribution others [] ("Mary Jones", "John Doe") test_data
                "2025-31" (PInt 10) b eq_refl) as (s & [= <-] & Hnew & _).
    apply Hnew. vm_compute. reflexivity.
  - destruct (pair_contribution others [] ("Sarah Brown", "Mary Jones")
                test_data "2025-31" (PInt 10) b eq_refl)
      as (s & [= <-] & _ & Hmet).
    apply (Hmet ["2025-30"] "2025-30" 1%Z); [vm_compute; reflexivity.. | lia].
  - destruct (pair_contribution others [] ("Peter Smith", "Mary Jones")
                test_data "2025-33" (PInt 10) b eq_refl)
      as (s & [= <-] & _ & Hmet).
    apply (Hmet ["2025-29"] "2025-29" 4%Z); [vm_compute; reflexivity.. | lia].
  - destruct (pair_contribution others [] ("Mary Jones", "Peter Smith")
                test_data "2025-35" (PInt 10) b eq_refl)
      as (s & [= <-] & _ & Hmet).
    apply (Hmet ["2025-29"] "2025-29" 6%Z); [vm_compute; reflexivity.. | lia].
Defined.

(** Week 29 of 2025 seen from week 1 of 2026. *)
Lemma later_ordinal_counts_as_recent_witness :
  let b := {| first_time_meetings := 1; recent_pairings := 0;
              old_pairings := 0; fairness_score := PInt 0;
              total_pairs := 1 |} in
  weeks_ago "2026-01" "2025-29" = Ok (1 - 29)%Z ∧ (1 - 29 < 0)%Z ∧
  ∃ s, PInt 10 = PInt s ∧
       score_solution [("Mary Jones", "Peter Smith");
                       ("Sarah Brown", "Lisa Wilson")] [] test_data "2026-01"
         default_weights
         = Ok (PInt (s + -5), count_recent (one_more_pair b)).
Proof.
  intros b.
  apply (later_ordinal_counts_as_recent [] [("Sarah Brown", "Lisa Wilson")]
           ("Mary Jones", "Peter Smith") test_data "2026-01" (PInt 10) b
           ["2025-29"] "2025-29" 1%Z 29%Z);
    [vm_compute; reflexivity.. | lia].
Defined.

(** Scenario E on the sample roster: five people with counts 1, 0, 2, 0
    and 1, whose average is the float 0.8, and the person with count 2
    left out.  The term is the float -3.5999999999999996. *)
Lemma fairness_contribution_witness :
  let term := PFloat (S754_finite true 8106479329266892 (-51)) in
  let b0 := {| first_time_meetings := 0; recent_pairings := 0;
               old_pairings := 0; fairness_score := PInt 0;
               total_pairs := 0 |} in
  ["Sarah Brown"] ≠ [] ∧
  score_solution [] ["Sarah Brown"] test_data "2025-31" default_weights
    = Ok (term, with_fairness term b0).
Proof.
  intros term b0.
  assert (["Sarah Brown"] ≠ []) as Hleft by discriminate.
  split; [exact Hleft|].
  apply (proj1 (fairness_contribution [] ["Sarah Brown"] test_data "2025-31"
                  default_weights term (with_fairness term b0) Hleft)).
  exists (PInt 0), b0, (S754_finite false 7205759403792794 (-53)), [term], term.
  split; [vm_compute; reflexivity|]. split; [vm_compute; reflexivity|].
  split; [constructor; [vm_compute; reflexivity|constructor]|].
  split; [vm_compute; reflexivity|]. split; [vm_compute; reflexivity|].
  reflexivity.
Defined.

(** Scenario E does not give -3.6: the average is the float 0.8 and the
    count is 2, but [(0.8 - 2) * 3] in floats is -3.5999999999999996, the
    float next above the float -3.6, and that is what the call returns as
    score and as fairness entry. *)
Lemma fairness_contribution_counterexample :
  avg_left_out (people test_data) = int_true_div 4 5 ∧
  left_out_count (people test_data) "Sarah Brown" = 2%Z ∧
  ∃ contribution b minus_3_6,
    score_solution [] ["Sarah Brown"] test_data "2025-31" default_weights
      = Ok (PFloat contribution, b) ∧
    fairness_score b = PFloat contribution ∧
    int_true_div (-18) 5 = Ok minus_3_6 ∧
    contribution ≠ minus_3_6 ∧
    py_lt (PFloat minus_3_6) (PFloat contribution) = true.
Proof.
  split; [vm_compute; reflexivity|]. split; [vm_compute; reflexivity|].
  eexists _, _, _. split; [vm_compute; reflexivity|].
  split; [reflexivity|]. split; [vm_compute; reflexivity|].
  split; [discriminate|]. vm_compute. reflexivity.
Qed.
(** ** Ranker *)

Section RankerSorting.

Lemma insert_desc_Permutation x l : insert_desc x l ≡ₚ x :: l.
Proof.
  induction l as [|y l IH]; [done|]. simpl. case_match; [|done].
  rw IH. apply perm_swap.
Qed.

Lemma sort_desc_Permutation l : sort_desc l ≡ₚ l.
Proof.
  induction l as [|x l IH]; [done|]. simpl.
  by rw insert_desc_Permutation IH.
Qed.

(** The sort sorts every list whose scores are of a kind [K] on which
    the comparison is total and transitive. *)
Section TotalPreorder.
Variable K : ranked → Prop.
Hypothesis Htotal : ∀ r1 r2,
  K r1 → K r2 → py_lt (score r1) (score r2) = false → score_ge r1 r2.
Hypothesis Htrans : ∀ r1 r2 r3,
  K r1 → K r2 → K r3 → score_ge r1 r2 → score_ge r2 r3 → score_ge r1 r3.

Lemma insert_desc_sorted x l :
  K x → Forall K l →
  StronglySorted score_ge l → StronglySorted score_ge (insert_desc x l).
Proof.
  intros Hx HK Hl. induction Hl as [|y l Hl IH Hy]; simpl;
    [by repeat constructor|].
  apply Forall_cons in HK as [HKy HK].
  destruct (py_lt (score x) (score y)) eqn:Hlt.
  - constructor; [by apply IH|]. rw insert_desc_Permutation.
    constructor; [|done]. by apply py_lt_le.
  - constructor; [by constructor|].
    assert (score_ge x y) as Hxy by (by apply Htotal).
    constructor; [done|]. rw Forall_forall. intros z Hz.
    apply (Htrans x y z); [done..| | |].
    + by apply (proj1 (Forall_forall _ _) HK).
    + done.
    + by apply (proj1 (Forall_forall _ _) Hy).
Qed.

Lemma sort_desc_sorted_of_kind l :
  Forall K l → StronglySorted score_ge (sort_desc l).
Proof.
  induction l as [|x l IH]; [constructor|].
  intros [Hx HK]%Forall_cons.
  apply (insert_desc_sorted x (sort_desc l)); [done| |by apply IH].
  by rw sort_desc_Permutation.
Qed.

End TotalPreorder.

Lemma sort_desc_sorted_int l :
  Forall int_score l → StronglySorted score_ge (sort_desc l).
Proof.
  apply sort_desc_sorted_of_kind.
  - intros r1 r2 [z1 H1] [z2 H2]. rw /score_ge H1 H2. apply py_le_int_total.
  - intros r1 r2 r3 [z1 H1] [z2 H2] [z3 H3]. rw /score_ge H1 H2 H3.
    intros H12 H23. by apply (py_le_int_trans _ z2).
Qed.

Lemma sort_desc_sorted_float l :
  Forall float_score l → StronglySorted score_ge (sort_desc l).
Proof.
  apply sort_desc_sorted_of_kind.
  - intros r1 r2 (x1 & H1 & Hn1) (x2 & H2 & Hn2). rw /score_ge H1 H2.
    by apply py_le_float_total.
  - intros r1 r2 r3 (x1 & H1 & _) (x2 & H2 & _) (x3 & H3 & _).
    rw /score_ge H1 H2 H3. intros H12 H23. by apply (py_le_float_trans _ x2).
Qed.

Lemma take_sorted n l :
  StronglySorted score_ge l → StronglySorted score_ge (take n l).
Proof.
  intros Hl. rw -(take_drop n l) in Hl. by apply StronglySorted_app_1_l in Hl.
Qed.

End RankerSorting.

Section RankerScores.
Variable d : data.
Variable target_week : string.
Implicit Types (active_people : list string)
               (manual_pairs : list (string * string)).

(** The score of a solution without leftover is an [int]; with one person
    left out it is a float and a number. *)
Lemma score_solution_int pairs score b :
  score_solution pairs [] d target_week default_weights = Ok (score, b) →
  ∃ z, score = PInt z.
Proof.
  rw score_solution_pairs_only.
  intros [_ ->]%(for_each_score_pair_weighted _ _ _ _ _ _ _ _ _ _ _
                   pair_weights_default). by eexists.
Qed.

Lemma float_of_int_3 : float_of_int 3 = Ok (S754_finite false 6755399441055744 (-51)).
Proof. vm_compute. reflexivity. Qed.

Lemma score_solution_float pairs person score b :
  score_solution pairs [person] d target_week default_weights = Ok (score, b) →
  ∃ x, score = PFloat x ∧ is_number x.
Proof.
  unfold score_solution.
  destruct (for_each _ _ pairs) as [[score0 b0]|e] eqn:Hpairs;
    cbn [mbind result_bind]; [|done].
  apply (for_each_score_pair_weighted _ _ _ _ _ _ _ _ _ _ _
           pair_weights_default) in Hpairs as [_ ->].
  destruct (avg_left_out (people d)) as [average|e] eqn:Haverage;
    cbn [mbind result_bind]; [|done].
  apply int_true_div_finite in Haverage.
  cbn [for_each]. rw score_left_out_term /fairness_term.
  cbn [py_sub to_float mbind result_bind].
  destruct (float_of_int (left_out_count _ _)) as [count|e] eqn:Hcount;
    cbn [mbind result_bind]; [|done].
  apply float_of_int_finite in Hcount.
  cbn [py_mul to_float default_weights fairness_bonus mbind result_bind].
  rw float_of_int_3. cbn [py_add to_float mbind result_bind].
  destruct (float_of_int _) as [pairs_score|e] eqn:Hscore;
    cbn [mbind result_bind]; [|done].
  apply float_of_int_finite in Hscore.
  destruct (py_add _ _); cbn [mbind result_bind]; [|done].
  intros [= <- _]. eexists. split; [done|].
  by apply SFadd_number, SFmul_number, SFsub_number.
Qed.

Lemma for_each_score_candidate_Forall2 manual_pairs candidates acc scored :
  for_each (score_candidate d target_week manual_pairs) acc candidates
    = Ok scored →
  ∃ new, scored = acc ++ new ∧
         Forall2 (scores_as d target_week manual_pairs) candidates new.
Proof.
  revert acc. induction candidates as [|[auto_pairs left_out] candidates IH];
    intros acc; cbn [for_each].
  - intros [= <-]. exists []. by rw app_nil_r.
  - destruct (score_candidate d target_week manual_pairs acc
                (auto_pairs, left_out)) as [acc'|e] eqn:Hstep;
      cbn [mbind result_bind]; [|done].
    intros (new & -> & Hnew)%IH. unfold score_candidate in Hstep.
    destruct (score_solution (manual_pairs ++ auto_pairs) left_out d
                target_week default_weights) as [[score b]|e] eqn:Hscore;
      cbn [mbind result_bind] in Hstep; [|done].
    injection Hstep as <-. eexists (_ :: new). rw -app_assoc. split; [done|].
    constructor; [|done]. by exists b.
Qed.

Lemma find_best_pairings_general active_people manual_pairs top_n solutions :
  2 ≤ length (available_people active_people manual_pairs) →
  find_best_pairings active_people d target_week manual_pairs top_n
    = Ok solutions →
  ∃ scored,
    Forall2 (scores_as d target_week manual_pairs)
      (get_all_possible_pairings (available_people active_people manual_pairs))
      scored ∧
    solutions = take top_n (sort_desc scored).
Proof.
  intros Havailable. unfold find_best_pairings.
  rw (bool_decide_false (length _ < 2)); [lia|].
  rw (bool_decide_false (length _ = 0)); [lia|]. cbn [andb].
  destruct (for_each _ _ _) as [scored|e] eqn:Hscored;
    cbn [mbind result_bind]; [|done].
  intros [= <-].
  apply for_each_score_candidate_Forall2 in Hscored as (new & -> & Hnew).
  by exists new.
Qed.

(** The scores of the candidates of one call are of one kind: everybody
    is paired in all of them, or one person is left out in all of them. *)
Lemma scored_of_one_kind manual_pairs (people : list string) scored :
  Forall2 (scores_as d target_week manual_pairs)
    (get_all_possible_pairings people) scored →
  Forall int_score scored ∨ Forall float_score scored.
Proof.
  intros Hscored.
  destruct (decide (length people < 2)) as [Hshort|Hlong].
  { rw get_all_possible_pairings_short // in Hscored.
    apply Forall2_nil_inv_l in Hscored as ->. by left. }
  rw get_all_possible_pairings_general in Hscored; [lia|].
  destruct (decide (length people `mod` 2 = 1)) as [Hodd|Heven];
    [right|left]; rw Forall_forall; intros r Hr;
    apply list_elem_of_lookup in Hr as [i Hi];
    destruct (Forall2_lookup_r _ _ _ _ _ Hscored Hi)
      as (c & Hc%list_elem_of_lookup_2 & b & Hscore & _);
    apply elem_of_general_pairings in Hc
      as [(? & _ & x & _ & Hleft & _)|(? & Hleft & _)]; try lia;
    rw Hleft in Hscore.
  - by apply score_solution_float in Hscore.
  - by apply score_solution_int in Hscore.
Qed.

Lemma sort_desc_sorted manual_pairs (people : list string) scored :
  Forall2 (scores_as d target_week manual_pairs)
    (get_all_possible_pairings people) scored →
  StronglySorted score_ge (sort_desc scored).
Proof.
  intros [?|?]%scored_of_one_kind;
    [by apply sort_desc_sorted_int | by apply sort_desc_sorted_float].
Qed.

End RankerScores.

Section RankerSpec.
Variable d : data.
Variable target_week : string.
Implicit Types (active_people : list string)
               (manual_pairs : list (string * string)).

(** C7. With at least two people available for automatic pairing, every
    solution returned contains every manual pair, the list returned is
    sorted by score, best first, and it has at most [top_n] entries. *)
Theorem ranked_solutions active_people manual_pairs top_n solutions :
  2 ≤ length (available_people active_people manual_pairs) →
  find_best_pairings active_people d target_week manual_pairs top_n
    = Ok solutions →
  (∀ r pair, r ∈ solutions → pair ∈ manual_pairs → pair ∈ pairs r) ∧
  StronglySorted score_ge solutions ∧
  length solutions ≤ top_n.
Proof.
  intros Havailable (scored & Hscored & ->)%find_best_pairings_general; [|done].
  split; [|split].
  - intros r pair Hr Hpair.
    apply elem_of_take in Hr as (i & Hr & _).
    apply list_elem_of_lookup_2 in Hr.
    apply (elem_of_Permutation_proper r _ _ (sort_desc_Permutation scored)) in Hr.
    apply list_elem_of_lookup in Hr as [j Hj].
    destruct (Forall2_lookup_r _ _ _ _ _ Hscored Hj)
      as (c & _ & b & _ & -> & _).
    apply elem_of_app. by left.
  - by eapply take_sorted, sort_desc_sorted.
  - rw length_take. lia.
Qed.

(** C8. When one person remains available the single solution returned
    has the manual pairs, that person as leftover and score 0; when nobody
    remains it has the manual pairs, no leftover and score 0; each carries
    the note of its degenerate case instead of a breakdown. *)
Theorem degenerate_solutions active_people manual_pairs top_n :
  (∀ person,
     available_people active_people manual_pairs = [person] →
     find_best_pairings active_people d target_week manual_pairs top_n
       = Ok [ {| score := PInt 0; pairs := manual_pairs;
                 left_out := [person];
                 details := Note "Only 1 person available for auto-pairing" |} ]) ∧
  (available_people active_people manual_pairs = [] →
   find_best_pairings active_people d target_week manual_pairs top_n
     = Ok [ {| score := PInt 0; pairs := manual_pairs; left_out := [];
               details := Note "All pairs are manual" |} ]).
Proof.
  unfold find_best_pairings. split; [intros person|]; by intros ->.
Qed.

End RankerSpec.

(** Scenario F: the sample roster with Mary and Peter paired by hand. *)
Lemma ranked_solutions_witness :
  2 ≤ length (available_people test_people [("Mary Jones", "Peter Smith")]) ∧
  ∃ solutions,
    find_best_pairings test_people test_data "2025-31"
      [("Mary Jones", "Peter Smith")] 3 = Ok solutions ∧
    (∀ r pair, r ∈ solutions → pair ∈ [("Mary Jones", "Peter Smith")] →
               pair ∈ pairs r) ∧
    StronglySorted score_ge solutions ∧ length solutions ≤ 3.
Proof.
  assert (2 ≤ length (available_people test_people
                        [("Mary Jones", "Peter Smith")])) as Havailable
    by (vm_compute; lia).
  split; [exact Havailable|]. eexists. split; [vm_compute; reflexivity|].
  apply (ranked_solutions test_data "2025-31" test_people
           [("Mary Jones", "Peter Smith")] 3); [exact Havailable|].
  vm_compute. reflexivity.
Defined.

(** One person, then nobody, left beside the manual pairs. *)
Lemma degenerate_solutions_witness :
  find_best_pairings ["Mary Jones"; "Peter Smith"; "Sarah Brown"] test_data
    "2025-31" [("Mary Jones", "Peter Smith")] 3
    = Ok [ {| score := PInt 0; pairs := [("Mary Jones", "Peter Smith")];
              left_out := ["Sarah Brown"];
              details := Note "Only 1 person available for auto-pairing" |} ] ∧
  find_best_pairings ["Mary Jones"; "Peter Smith"] test_data
    "2025-31" [("Mary Jones", "Peter Smith")] 3
    = Ok [ {| score := PInt 0; pairs := [("Mary Jones", "Peter Smith")];
              left_out := [];
              details := Note "All pairs are manual" |} ].
Proof.
  split.
  - apply (proj1 (degenerate_solutions test_data "2025-31"
                    ["Mary Jones"; "Peter Smith"; "Sarah Brown"]
                    [("Mary Jones", "Peter Smith")] 3)).
    vm_compute. reflexivity.
  - apply (proj2 (degenerate_solutions test_data "2025-31"
                    ["Mary Jones"; "Peter Smith"]
                    [("Mary Jones", "Peter Smith")] 3)).
    vm_compute. reflexivity.
Defined.
(** ** Scorer: further properties *)

Section ScorerMore.
Implicit Types (d : data) (w : weights) (target_week : string)
               (pairs : list (string * string)) (left_out : list string).

Lemma score_pair_swap w historical_pairs target_week st (p : string * string) :
  score_pair w historical_pairs target_week st (p.2, p.1)
    = score_pair w historical_pairs target_week st p.
Proof. unfold score_pair. simpl. by rw pair_key_sym. Qed.

Lemma for_each_fmap_ext {S T U} (body : S → T → result S) (g : U → T)
    (body' : S → U → result S) (s : S) (l : list U) :
  (∀ s x, body s (g x) = body' s x) →
  for_each body s (g <$> l) = for_each body' s l.
Proof.
  intros Hbody. revert s. induction l as [|x l IH]; intros s; [done|].
  cbn [fmap list_fmap for_each]. rw Hbody.
  destruct (body' s x) as [s'|e]; cbn [mbind result_bind]; [apply IH|done].
Qed.

(** X12. The order of the two names inside a pair is of no consequence: turning
    any of the pairs around leaves the result of [score_solution] as it
    is, score, breakdown or exception. *)
Theorem score_ignores_orientation (turn : string * string → bool)
    pairs left_out d target_week w :
  score_solution ((λ p, if turn p then (p.2, p.1) else p) <$> pairs)
                 left_out d target_week w
    = score_solution pairs left_out d target_week w.
Proof.
  unfold score_solution. rw length_fmap.
  rw (for_each_fmap_ext _ _ (score_pair w (get_historical_pairs d) target_week)) //.
  intros st p. destruct (turn p); [apply score_pair_swap|done].
Qed.

(** On weeks that parse, a pair has no history or a distance. *)
Lemma score_pair_cases d target_week current_week_num (p : string * string) :
  week_num target_week = Ok current_week_num →
  (∀ week w_data, (week, w_data) ∈ default [] (pairings d) →
                  ∃ n, week_num week = Ok n) →
  get_historical_pairs d !! pair_key p.1 p.2 = None ∨
  ∃ last_weeks most_recent ago,
    get_historical_pairs d !! pair_key p.1 p.2 = Some last_weeks ∧
    py_max last_weeks = Ok most_recent ∧
    weeks_ago target_week most_recent = Ok ago.
Proof.
  intros Htarget Hweeks.
  destruct (get_historical_pairs_holds d (pair_key p.1 p.2)) as [Hne Hrec].
  destruct (get_historical_pairs d !! pair_key p.1 p.2)
    as [[|week weeks]|]; [done| |by left].
  right. exists (week :: weeks). cbn [py_max].
  destruct (foldl_max_spec weeks week) as (Hin & _). cbn zeta in Hin.
  set (most_recent := foldl _ week weeks) in *.
  assert (most_recent ∈ default [] (Some (week :: weeks))) as Hmr
    by (destruct Hin as [-> | ?]; [left|by right]).
  apply Hrec in Hmr as (w_data & _ & _ & Hmr & _).
  destruct (Hweeks _ _ Hmr) as [n Hn].
  exists most_recent, (current_week_num - n)%Z. split; [done|].
  split; [done|]. by rw /weeks_ago Htarget Hn.
Qed.

Lemma score_pair_overflows d w target_week current_week_num st p :
  week_num target_week = Ok current_week_num →
  (∀ week w_data, (week, w_data) ∈ default [] (pairings d) →
                  ∃ n, week_num week = Ok n) →
  returns_or_overflows (score_pair w (get_historical_pairs d) target_week st p).
Proof.
  intros Htarget Hweeks. destruct st as [score b].
  destruct (score_pair_cases d target_week current_week_num p Htarget Hweeks)
    as [Hnew|(last_weeks & most_recent & ago & Hmet & Hmax & Hago)].
  - rw score_pair_first_time //.
    apply returns_or_overflows_bind; [apply py_add_overflows|].
    intros ? _. by left; eexists.
  - rw (score_pair_met _ _ _ _ _ _ _ _ _ Hmet Hmax Hago).
    destruct (ago <=? 2)%Z; [|destruct (ago <=? 4)%Z];
      [| |by left; eexists];
      (apply returns_or_overflows_bind; [apply py_add_overflows|]);
      intros ? _; by left; eexists.
Qed.

Lemma score_pair_int_ok d w k1 k2 k3 target_week current_week_num s b p :
  pair_weights w k1 k2 k3 →
  week_num target_week = Ok current_week_num →
  (∀ week w_data, (week, w_data) ∈ default [] (pairings d) →
                  ∃ n, week_num week = Ok n) →
  ∃ s' b', score_pair w (get_historical_pairs d) target_week (PInt s, b) p
             = Ok (PInt s', b').
Proof.
  intros (Hw1 & Hw2 & Hw3) Htarget Hweeks.
  destruct (score_pair_cases d target_week current_week_num p Htarget Hweeks)
    as [Hnew|(last_weeks & most_recent & ago & Hmet & Hmax & Hago)].
  - rw score_pair_first_time // Hw1. by eexists _, _.
  - rw (score_pair_met _ _ _ _ _ _ _ _ _ Hmet Hmax Hago) Hw2 Hw3.
    destruct (ago <=? 2)%Z; [|destruct (ago <=? 4)%Z]; by eexists _, _.
Qed.

Lemma score_left_out_overflows w roster average st person :
  returns_or_overflows (score_left_out w roster average st person).
Proof.
  destruct st as [score b]. unfold score_left_out.
  apply returns_or_overflows_bind; [apply py_sub_overflows|]. intros ? _.
  apply returns_or_overflows_bind; [apply py_mul_overflows|]. intros ? _.
  apply returns_or_overflows_bind; [apply py_add_overflows|]. intros ? _.
  apply returns_or_overflows_bind; [apply py_add_overflows|]. intros ? _.
  by left; eexists.
Qed.

Lemma score_solution_overflows pairs left_out d target_week w
    current_week_num :
  week_num target_week = Ok current_week_num →
  (∀ week w_data, (week, w_data) ∈ default [] (pairings d) →
                  ∃ n, week_num week = Ok n) →
  left_out = [] ∨ size (people d) ≠ 0 →
  returns_or_overflows (score_solution pairs left_out d target_week w).
Proof.
  intros Htarget Hweeks Hroster. unfold score_solution.
  apply returns_or_overflows_bind.
  { apply for_each_overflows. intros st p _.
    by apply (score_pair_overflows _ _ _ current_week_num). }
  intros st _. destruct left_out as [|person left_out]; [by left; eexists|].
  destruct Hroster as [|Hsize]; [done|].
  apply returns_or_overflows_bind; [apply int_true_div_overflows; lia|].
  intros average _. apply for_each_overflows. intros st' x _.
  apply score_left_out_overflows.
Qed.

Lemma score_solution_int_ok pairs d target_week w k1 k2 k3 current_week_num :
  pair_weights w k1 k2 k3 →
  week_num target_week = Ok current_week_num →
  (∀ week w_data, (week, w_data) ∈ default [] (pairings d) →
                  ∃ n, week_num week = Ok n) →
  ∃ score b, score_solution pairs [] d target_week w = Ok (score, b).
Proof.
  intros Hw Htarget Hweeks. rw score_solution_pairs_only.
  assert (∀ s b, ∃ score' b',
            for_each (score_pair w (get_historical_pairs d) target_week)
              (PInt s, b) pairs = Ok (score', b')) as Hloop; [|apply Hloop].
  induction pairs as [|p pairs IH]; intros s b; [by eexists _, _|].
  cbn [for_each].
  destruct (score_pair_int_ok d w k1 k2 k3 target_week current_week_num s b p)
    as (s' & b' & ->); [done..|]. apply IH.
Qed.

(** X13. On well-formed data [score_solution] raises no exception but
    [OverflowError]: when the target week and every week of the history
    have a second field that is an optional sign and ASCII digits, and the
    roster is not empty or nobody is left out, the call returns or a
    number is too large for a float.  With nobody left out and [int]
    weights it returns. *)
Theorem score_solution_total pairs left_out d target_week w current_week_num :
  week_num target_week = Ok current_week_num →
  (∀ week w_data, (week, w_data) ∈ default [] (pairings d) →
                  ∃ n, week_num week = Ok n) →
  left_out = [] ∨ size (people d) ≠ 0 →
  returns_or_overflows (score_solution pairs left_out d target_week w) ∧
  (left_out = [] →
   ∀ k1 k2 k3, pair_weights w k1 k2 k3 →
     ∃ score b, score_solution pairs left_out d target_week w = Ok (score, b)).
Proof.
  intros Htarget Hweeks Hroster.
  split; [by apply (score_solution_overflows _ _ _ _ _ current_week_num)|].
  intros -> k1 k2 k3 Hw.
  by apply (score_solution_int_ok _ _ _ _ k1 k2 k3 current_week_num).
Qed.

End ScorerMore.

Section ScorerBreakdown.
Implicit Types (d : data) (w : weights) (target_week : string)
               (pairs : list (string * string)) (left_out : list string).

Lemma for_each_score_left_out_counts w roster average left_out score0 b0
    score b :
  for_each (score_left_out w roster average) (score0, b0) left_out
    = Ok (score, b) →
  total_pairs b = total_pairs b0 ∧ counted_pairs b = counted_pairs b0.
Proof.
  by intros (terms & total & _ & _ & _ & ->)%for_each_score_left_out.
Qed.

(** X14. The breakdown accounts for the pairs: [total_pairs] is the number
    of pairs and the three counters never count more pairs than there
    are.  With nobody left out the fairness entry is 0, and under [int]
    weights the score is the [int] sum of the three counters, each times
    its weight. *)
Theorem score_matches_breakdown pairs left_out d target_week w score b :
  score_solution pairs left_out d target_week w = Ok (score, b) →
  total_pairs b = length pairs ∧
  counted_pairs b ≤ length pairs ∧
  (left_out = [] →
   fairness_score b = PInt 0 ∧
   ∀ k1 k2 k3, pair_weights w k1 k2 k3 →
               score = PInt (weighted_counts k1 k2 k3 b)).
Proof.
  unfold score_solution.
  set (b0 := {| first_time_meetings := 0; recent_pairings := 0;
                old_pairings := 0; fairness_score := PInt 0;
                total_pairs := length pairs |}).
  destruct (for_each _ _ pairs) as [[score1 b1]|e] eqn:Hloop;
    cbn [mbind result_bind]; [|done].
  pose proof (for_each_score_pair_keeps _ _ _ _ _ _ _ _ Hloop) as [Hf Ht].
  pose proof (for_each_score_pair_counted _ _ _ _ _ _ _ _ Hloop) as Hc.
  cbn in Hf, Ht, Hc.
  destruct left_out as [|person left_out].
  - intros [= <- <-]. split; [done|]. split; [done|]. intros _.
    split; [done|]. intros k1 k2 k3 Hw.
    apply (for_each_score_pair_weighted _ _ _ _ _ _ _ _ _ _ _ Hw) in Hloop
      as [_ ->]. f_equal. unfold weighted_counts at 2. cbn. lia.
  - destruct (avg_left_out (people d)) as [average|]; cbn [mbind result_bind];
      [|done].
    intros [Ht' Hc']%for_each_score_left_out_counts.
    split; [congruence|]. split; [lia|done].
Qed.

End ScorerBreakdown.

Section ScorerEdges.
Implicit Types (d : data) (w : weights) (target_week : string)
               (pairs : list (string * string)) (left_out : list string).

Lemma py_add_zero a : ∃ r, py_add (PInt 0) a = Ok r.
Proof. destruct a; by eexists. Qed.

Lemma add_all_int s k n :
  add_all (PInt s) (replicate n (PInt k)) = Ok (PInt (s + Z.of_nat n * k)).
Proof.
  revert s. induction n as [|n IH]; intros s.
  - cbn. by rw Z.add_0_r.
  - cbn [replicate]. unfold add_all in *. cbn [for_each py_add mbind result_bind].
    rw IH. do 2 f_equal. lia.
Qed.

Lemma for_each_first_meetings w historical_pairs target_week pairs score b :
  (∀ p, p ∈ pairs → historical_pairs !! pair_key p.1 p.2 = None) →
  (∃ r, py_add score (first_time_meeting w) = Ok r) →
  ∃ score' b',
    for_each (score_pair w historical_pairs target_week) (score, b) pairs
      = Ok (score', b') ∧
    first_time_meetings b' = first_time_meetings b + length pairs ∧
    recent_pairings b' = recent_pairings b ∧ old_pairings b' = old_pairings b ∧
    add_all score (replicate (length pairs) (first_time_meeting w)) = Ok score'.
Proof.
  revert score b. induction pairs as [|p pairs IH]; intros score b Hnew Hadd.
  - exists score, b. cbn. split; [done|]. split; [lia|]. done.
  - cbn [for_each]. rw score_pair_first_time; [apply Hnew; left|].
    destruct Hadd as [r Hr]. rw Hr. cbn [mbind result_bind].
    destruct (IH r (count_first_time b))
      as (score' & b' & -> & Hf & Hr' & Ho & Hs);
      [by intros q Hq; apply Hnew; right | by eapply py_add_again|].
    exists score', b'. split; [done|]. cbn in Hf, Hr', Ho.
    split; [cbn [length]; lia|]. split; [done|]. split; [done|].
    cbn [length replicate]. unfold add_all in *. cbn [for_each]. by rw Hr.
Qed.

(** X15. When none of the pairs has met before, everybody paired up scores as a
    first meeting, and the target week is not even looked at: any string
    will do.  The score is the weight added to 0 once a pair, which for an
    [int] weight is the number of pairs times the weight. *)
Theorem all_first_meetings pairs d target_week w :
  (∀ p, p ∈ pairs → get_historical_pairs d !! pair_key p.1 p.2 = None) →
  ∃ score b,
    score_solution pairs [] d target_week w = Ok (score, b) ∧
    first_time_meetings b = length pairs ∧
    recent_pairings b = 0 ∧ old_pairings b = 0 ∧
    add_all (PInt 0) (replicate (length pairs) (first_time_meeting w))
      = Ok score ∧
    (∀ k, first_time_meeting w = PInt k →
          score = PInt (Z.of_nat (length pairs) * k)).
Proof.
  intros Hnew. rw score_solution_pairs_only.
  destruct (for_each_first_meetings w (get_historical_pairs d) target_week pairs
              (PInt 0) {| first_time_meetings := 0; recent_pairings := 0;
                          old_pairings := 0; fairness_score := PInt 0;
                          total_pairs := length pairs |} Hnew)
    as (score & b & -> & Hf & Hr & Ho & Hs); [apply py_add_zero|].
  exists score, b. cbn in *. split; [done|]. split; [done|]. split; [done|].
  split; [done|]. split; [done|]. intros k Hk.
  rw Hk add_all_int in Hs. by injection Hs as <-.
Qed.

Lemma split_dash_no_dash (s : string) :
  dash ∉ String.list_ascii_of_string s → split_dash s = [s].
Proof.
  induction s as [|c s IH]; [done|]. cbn [String.list_ascii_of_string split_dash].
  intros [Hc Hs]%not_elem_of_cons.
  rw (proj2 (Ascii.eqb_neq c dash)); [done|]. by rw IH.
Qed.

Lemma for_each_no_dash w d target_week pairs p score b :
  (∃ r, py_add score (first_time_meeting w) = Ok r) →
  dash ∉ String.list_ascii_of_string target_week →
  p ∈ pairs → get_historical_pairs d !! pair_key p.1 p.2 ≠ None →
  for_each (score_pair w (get_historical_pairs d) target_week) (score, b) pairs
    = Raise IndexError.
Proof.
  intros Hadd Hdash Hp Hmet. revert score b Hadd.
  induction pairs as [|q pairs IH]; intros score b Hadd;
    [by apply elem_of_nil in Hp|].
  cbn [for_each].
  destruct (get_historical_pairs_holds d (pair_key q.1 q.2)) as [Hne _].
  destruct (get_historical_pairs d !! pair_key q.1 q.2)
    as [[|week weeks]|] eqn:Hq; [done| |].
  - assert (score_pair w (get_historical_pairs d) target_week (score, b) q
              = Raise IndexError) as ->; [|done].
    unfold score_pair. rw Hq. cbn [py_max mbind result_bind].
    by rw /weeks_ago /week_num (split_dash_no_dash _ Hdash).
  - rw score_pair_first_time //. destruct Hadd as [r Hr]. rw Hr.
    cbn [mbind result_bind]. apply IH; [|by eapply py_add_again].
    apply elem_of_cons in Hp as [-> | Hp]; [done|done].
Qed.

(** X16. A target week without a dash: as soon as one of the pairs has met
    before the call raises [IndexError], whatever else it is given. *)
Theorem target_week_without_dash pairs left_out d target_week w p :
  dash ∉ String.list_ascii_of_string target_week →
  p ∈ pairs → get_historical_pairs d !! pair_key p.1 p.2 ≠ None →
  score_solution pairs left_out d target_week w = Raise IndexError.
Proof.
  intros Hdash Hp Hmet. unfold score_solution.
  rw (for_each_no_dash w d target_week pairs p) //. apply py_add_zero.
Qed.

End ScorerEdges.
(** ** Ranker: further properties *)

Section RankerMore.
Variable d : data.
Variable target_week : string.
Implicit Types (active_people : list string)
               (manual_pairs : list (string * string)).

Lemma elem_of_foldl_paired manual_pairs (acc : gset string) x :
  x ∈ foldl (λ people pair, people ∪ {[pair.1; pair.2]}) acc manual_pairs ↔
  x ∈ acc ∨ ∃ pair, pair ∈ manual_pairs ∧ (x = pair.1 ∨ x = pair.2).
Proof.
  revert acc. induction manual_pairs as [|pair manual_pairs IH]; intros acc.
  - simpl. split; [by left|]. by intros [?|(? & []%elem_of_nil & _)].
  - cbn [foldl]. rw IH. split.
    + intros [[?|[->%elem_of_singleton| ->%elem_of_singleton]%elem_of_union]
                %elem_of_union|(q & ? & ?)].
      * by left.
      * right. exists pair. split; [left|by left].
      * right. exists pair. split; [left|by right].
      * right. exists q. split; [by right|done].
    + rw !elem_of_union !elem_of_singleton.
      intros [?|(q & [-> | ?]%elem_of_cons & Hx)]; [tauto|tauto|].
      right. by exists q.
Qed.

(** X18. The people available for automatic pairing are the active people, in
    their order, who are in none of the manual pairs. *)
Theorem available_people_spec active_people manual_pairs :
  available_people active_people manual_pairs `sublist_of` active_people ∧
  ∀ p, p ∈ available_people active_people manual_pairs ↔
       p ∈ active_people ∧
       ∀ pair, pair ∈ manual_pairs → p ≠ pair.1 ∧ p ≠ pair.2.
Proof.
  unfold available_people. split; [apply sublist_filter|]. intros p.
  rw list_elem_of_filter /manually_paired_people elem_of_foldl_paired.
  split.
  - intros [Hfree Hactive]. split; [done|]. intros pair Hpair.
    split; intros ->; apply Hfree; right; exists pair; eauto.
  - intros [Hactive Hfree]. split; [|done].
    intros [[]%elem_of_empty|(pair & Hpair & Hp)].
    destruct (Hfree pair Hpair). by destruct Hp.
Qed.

(** X19. The number of solutions returned in the general case is [top_n], or
    the number of candidates when there are fewer. *)
Theorem ranked_count active_people manual_pairs top_n solutions :
  2 ≤ length (available_people active_people manual_pairs) →
  find_best_pairings active_people d target_week manual_pairs top_n
    = Ok solutions →
  length solutions
    = top_n `min` length (get_all_possible_pairings
                            (available_people active_people manual_pairs)).
Proof.
  intros Havailable (scored & Hscored & ->)%find_best_pairings_general; [|done].
  rw length_take (Permutation_length (sort_desc_Permutation scored)).
  by rw (Forall2_length _ _ _ Hscored).
Qed.

(** X20. Every solution returned in the general case is one of the enumerated
    candidates, with the manual pairs put in front and the score and
    breakdown that [score_solution] gives it under the default weights. *)
Theorem returned_is_scored_candidate active_people manual_pairs top_n
    solutions r :
  2 ≤ length (available_people active_people manual_pairs) →
  find_best_pairings active_people d target_week manual_pairs top_n
    = Ok solutions →
  r ∈ solutions →
  ∃ c, c ∈ get_all_possible_pairings
             (available_people active_people manual_pairs) ∧
       scores_as d target_week manual_pairs c r.
Proof.
  intros Havailable (scored & Hscored & ->)%find_best_pairings_general Hr;
    [|done].
  apply subseteq_take in Hr. rw sort_desc_Permutation in Hr.
  apply list_elem_of_lookup in Hr as [i Hi].
  destruct (Forall2_lookup_r _ _ _ _ _ Hscored Hi) as (c & Hc & Hcr).
  exists c. split; [by eapply list_elem_of_lookup_2|done].
Qed.

(** X21. The solutions returned are the best ones: every enumerated candidate
    is scored, and it is either among the solutions returned or scores no
    higher than any of them. *)
Theorem returned_are_the_best active_people manual_pairs top_n solutions c :
  2 ≤ length (available_people active_people manual_pairs) →
  find_best_pairings active_people d target_week manual_pairs top_n
    = Ok solutions →
  c ∈ get_all_possible_pairings (available_people active_people manual_pairs) →
  ∃ r', scores_as d target_week manual_pairs c r' ∧
        (r' ∈ solutions ∨ ∀ r, r ∈ solutions → score_ge r r').
Proof.
  intros Havailable (scored & Hscored & ->)%find_best_pairings_general Hc;
    [|done].
  apply list_elem_of_lookup in Hc as [i Hi].
  destruct (Forall2_lookup_l _ _ _ _ _ Hscored Hi) as (r' & Hr' & Hcr).
  exists r'. split; [done|].
  apply list_elem_of_lookup_2 in Hr'.
  apply (proj2 (elem_of_Permutation_proper r' _ _
                  (sort_desc_Permutation scored))) in Hr'.
  pose proof (sort_desc_sorted d target_week _ _ _ Hscored) as Hsorted.
  rw -(take_drop top_n (sort_desc scored)) in Hr'.
  rw -(take_drop top_n (sort_desc scored)) in Hsorted.
  apply elem_of_app in Hr' as [?|Hdropped]; [by left|]. right. intros r Hr.
  by apply (StronglySorted_app_1_elem_of _ _ _ _ _ Hsorted).
Qed.

End RankerMore.

Section RankerTotal.
Variable d : data.
Variable target_week : string.
Implicit Types (active_people : list string)
               (manual_pairs : list (string * string)).

(** X22. Nobody is lost or doubled by the ranker: in every solution returned,
    degenerate or not, the people in the pairs followed by the leftover are
    those of the manual pairs and the people available for automatic
    pairing, each as often as there. *)
Theorem everyone_accounted_for active_people manual_pairs top_n solutions r :
  find_best_pairings active_people d target_week manual_pairs top_n
    = Ok solutions →
  r ∈ solutions →
  members (pairs r) ++ left_out r
    ≡ₚ members manual_pairs ++ available_people active_people manual_pairs.
Proof.
  intros Hfind Hr.
  destruct (decide (2 ≤ length (available_people active_people manual_pairs)))
    as [Hlong|Hshort].
  - destruct (find_best_pairings_general d target_week _ _ _ _ Hlong Hfind)
      as (scored & Hscored & ->).
    apply subseteq_take in Hr. rw sort_desc_Permutation in Hr.
    apply list_elem_of_lookup in Hr as [i Hi].
    destruct (Forall2_lookup_r _ _ _ _ _ Hscored Hi)
      as (c & Hc & b & _ & -> & -> & _).
    apply list_elem_of_lookup_2, participants_get_all in Hc.
    rw /members bind_app -app_assoc. by apply Permutation_app_head.
  - unfold find_best_pairings in Hfind.
    destruct (available_people active_people manual_pairs) as [|x [|y l]];
      [| |simpl in Hshort; lia]; simpl in Hfind;
      injection Hfind as <-; apply list_elem_of_singleton in Hr as ->; done.
Qed.

Lemma for_each_score_candidate_ok manual_pairs candidates acc :
  (∀ c, c ∈ candidates →
        ∃ score b, score_solution (manual_pairs ++ c.1) c.2 d target_week
                     default_weights = Ok (score, b)) →
  ∃ scored,
    for_each (score_candidate d target_week manual_pairs) acc candidates
      = Ok scored.
Proof.
  revert acc. induction candidates as [|[auto_pairs left_out] candidates IH];
    intros acc Hok; [by eexists|].
  cbn [for_each].
  destruct (Hok (auto_pairs, left_out)) as (score & b & Hscore); [left|].
  simpl in Hscore.
  assert (∃ acc', score_candidate d target_week manual_pairs acc
                    (auto_pairs, left_out) = Ok acc') as [acc' ->]
    by (unfold score_candidate; rw Hscore; by eexists).
  cbn [mbind result_bind]. apply IH. intros c Hc. apply Hok. by right.
Qed.

Lemma for_each_score_candidate_overflows manual_pairs candidates acc :
  (∀ c, c ∈ candidates →
        returns_or_overflows
          (score_solution (manual_pairs ++ c.1) c.2 d target_week
             default_weights)) →
  returns_or_overflows
    (for_each (score_candidate d target_week manual_pairs) acc candidates).
Proof.
  intros Hok. apply for_each_overflows. intros scored [auto_pairs left_out] Hc.
  unfold score_candidate.
  apply returns_or_overflows_bind; [by apply (Hok (auto_pairs, left_out))|].
  intros [score b] _. by left; eexists.
Qed.

Lemma find_best_pairings_scored active_people manual_pairs top_n scored :
  2 ≤ length (available_people active_people manual_pairs) →
  for_each (score_candidate d target_week manual_pairs) []
    (get_all_possible_pairings (available_people active_people manual_pairs))
    = Ok scored →
  1 ≤ top_n → take top_n (sort_desc scored) ≠ [].
Proof.
  intros Hlong Hscored Htop Hnil%length_zero_iff_nil.
  apply for_each_score_candidate_Forall2 in Hscored as (new & -> & Hnew).
  rw length_take (Permutation_length (sort_desc_Permutation _)) in Hnil.
  rw -(Forall2_length _ _ _ Hnew) in Hnil.
  pose proof (get_all_possible_pairings_nonempty _ Hlong) as Hcands.
  destruct (get_all_possible_pairings _); [done|]. simpl in Hnil. lia.
Qed.

Lemma find_best_pairings_overflows active_people manual_pairs top_n
    current_week_num :
  week_num target_week = Ok current_week_num →
  (∀ week w_data, (week, w_data) ∈ default [] (pairings d) →
                  ∃ n, week_num week = Ok n) →
  (length (available_people active_people manual_pairs) `mod` 2 = 0 ∨
   length (available_people active_people manual_pairs) = 1 ∨
   size (people d) ≠ 0) →
  (∃ solutions,
     find_best_pairings active_people d target_week manual_pairs top_n
       = Ok solutions ∧
     (1 ≤ top_n → solutions ≠ [])) ∨
  find_best_pairings active_people d target_week manual_pairs top_n
    = Raise OverflowError.
Proof.
  intros Htarget Hweeks Hroster.
  destruct (decide (2 ≤ length (available_people active_people manual_pairs)))
    as [Hlong|Hshort].
  - assert (returns_or_overflows
              (for_each (score_candidate d target_week manual_pairs) []
                 (get_all_possible_pairings
                    (available_people active_people manual_pairs))))
      as [[scored Hscored]|Hraise].
    { apply for_each_score_candidate_overflows. intros c Hc.
      apply (score_solution_overflows _ _ _ _ _ current_week_num); [done..|].
      rw get_all_possible_pairings_general // in Hc.
      apply elem_of_general_pairings in Hc
        as [(Hodd & _)|(_ & Hleft & _)]; [right|by left].
      destruct Hroster as [?|[?|?]]; [lia|lia|done]. }
    + left. unfold find_best_pairings.
      rw (bool_decide_false (length _ < 2)); [lia|].
      rw (bool_decide_false (length _ = 0)); [lia|]. cbn [andb].
      rw Hscored. cbn [mbind result_bind]. eexists. split; [done|].
      by apply (find_best_pairings_scored active_people manual_pairs).
    + right. unfold find_best_pairings.
      rw (bool_decide_false (length _ < 2)); [lia|].
      rw (bool_decide_false (length _ = 0)); [lia|]. cbn [andb].
      by rw Hraise.
  - left. unfold find_best_pairings.
    destruct (available_people active_people manual_pairs) as [|x [|y l]];
      [| |simpl in Hshort; lia]; simpl; by eexists.
Qed.

Lemma find_best_pairings_returns active_people manual_pairs top_n
    current_week_num :
  week_num target_week = Ok current_week_num →
  (∀ week w_data, (week, w_data) ∈ default [] (pairings d) →
                  ∃ n, week_num week = Ok n) →
  (length (available_people active_people manual_pairs) `mod` 2 = 0 ∨
   length (available_people active_people manual_pairs) = 1) →
  ∃ solutions,
    find_best_pairings active_people d target_week manual_pairs top_n
      = Ok solutions ∧
    (1 ≤ top_n → solutions ≠ []).
Proof.
  intros Htarget Hweeks Hfull. unfold find_best_pairings.
  destruct (decide (2 ≤ length (available_people active_people manual_pairs)))
    as [Hlong|Hshort].
  - rw (bool_decide_false (length _ < 2)); [lia|].
    rw (bool_decide_false (length _ = 0)); [lia|]. cbn [andb].
    destruct (for_each_score_candidate_ok manual_pairs
                (get_all_possible_pairings
                   (available_people active_people manual_pairs)) [])
      as [scored Hscored].
    { intros c Hc. rw get_all_possible_pairings_general // in Hc.
      apply elem_of_general_pairings in Hc
        as [(Hodd & _)|(_ & Hleft & _)]; [lia|]. rw Hleft.
      apply (score_solution_int_ok _ _ _ _ _ _ _ current_week_num
               pair_weights_default); done. }
    rw Hscored. cbn [mbind result_bind]. eexists. split; [done|].
    by apply (find_best_pairings_scored active_people manual_pairs).
  - destruct (available_people active_people manual_pairs) as [|x [|y l]];
      [| |simpl in Hshort; lia]; simpl; by eexists.
Qed.

(** X23. On well-formed data [find_best_pairings] raises no exception but
    [OverflowError]: when the target week and every week of the history
    have a second field that is an optional sign and ASCII digits, and the
    roster is not empty or nobody has to be left out by the automatic
    pairing, the call returns, with at least one solution when [top_n] is
    one or more, or a number is too large for a float.  When the number of
    people available is even or one, it returns. *)
Theorem find_best_pairings_total active_people manual_pairs top_n
    current_week_num :
  week_num target_week = Ok current_week_num →
  (∀ week w_data, (week, w_data) ∈ default [] (pairings d) →
                  ∃ n, week_num week = Ok n) →
  (length (available_people active_people manual_pairs) `mod` 2 = 0 ∨
   length (available_people active_people manual_pairs) = 1 ∨
   size (people d) ≠ 0) →
  ((∃ solutions,
      find_best_pairings active_people d target_week manual_pairs top_n
        = Ok solutions ∧
      (1 ≤ top_n → solutions ≠ [])) ∨
   find_best_pairings active_people d target_week manual_pairs top_n
     = Raise OverflowError) ∧
  (length (available_people active_people manual_pairs) `mod` 2 = 0 ∨
   length (available_people active_people manual_pairs) = 1 →
   ∃ solutions,
     find_best_pairings active_people d target_week manual_pairs top_n
       = Ok solutions ∧
     (1 ≤ top_n → solutions ≠ [])).
Proof.
  intros Htarget Hweeks Hroster. split.
  - by apply (find_best_pairings_overflows _ _ _ current_week_num).
  - by apply (find_best_pairings_returns _ _ _ current_week_num).
Qed.

(** X24. With an empty roster and an odd number of people available for
    automatic pairing, [find_best_pairings] returns nothing: scoring the
    first candidate, which leaves somebody out, raises an exception. *)
Theorem empty_roster_odd_group_fails active_people manual_pairs top_n :
  people d = ∅ →
  2 ≤ length (available_people active_people manual_pairs) →
  length (available_people active_people manual_pairs) `mod` 2 = 1 →
  ∀ solutions,
    find_best_pairings active_people d target_week manual_pairs top_n
      ≠ Ok solutions.
Proof.
  intros Hpeople Hlong Hodd solutions. unfold find_best_pairings.
  rw (bool_decide_false (length _ < 2)); [lia|].
  rw (bool_decide_false (length _ = 0)); [lia|]. cbn [andb].
  pose proof (get_all_possible_pairings_nonempty _ Hlong) as Hcands.
  destruct (get_all_possible_pairings _) as [|[auto_pairs left_out] candidates]
    eqn:Hall; [done|].
  assert ((auto_pairs, left_out) ∈ get_all_possible_pairings
            (available_people active_people manual_pairs)) as Hc
    by (rw Hall; left).
  rw get_all_possible_pairings_general // in Hc.
  apply elem_of_general_pairings in Hc
    as [(_ & i & x & _ & Hleft & _)|(Heven & _)]; [|lia].
  simpl in Hleft. subst left_out. cbn [for_each].
  assert (∃ e, score_candidate d target_week manual_pairs []
                 (auto_pairs, [x]) = Raise e) as [e ->]; [|done].
  unfold score_candidate, score_solution.
  destruct (for_each _ _ (manual_pairs ++ auto_pairs)) as [st|e];
    cbn [mbind result_bind]; [|by eexists].
  rw Hpeople. by eexists.
Qed.

End RankerTotal.

(** ** Roster management *)

Import Roster.

Section RosterSpec.
Implicit Types (r : roster) (name : string) (e : entry).

Lemma find_entry_None name r : find_entry name r = None ↔ name ∉ names r.
Proof.
  unfold names. induction r as [|[n e] r IH]; simpl.
  - split; [intros _; apply not_elem_of_nil|done].
  - rw not_elem_of_cons. case_bool_decide; [|rw IH]; split; try done.
    + by intros [? _].
    + by intros [_ ?].
Qed.

Lemma find_entry_Some name r e : find_entry name r = Some e → (name, e) ∈ r.
Proof.
  induction r as [|[n e'] r IH]; simpl; [done|].
  case_bool_decide; [intros [= ->]; subst; left|intros ?; right; eauto].
Qed.

Lemma find_entry_unique name r e :
  NoDup (names r) → (name, e) ∈ r → find_entry name r = Some e.
Proof.
  unfold names. induction r as [|[n e'] r IH]; simpl;
    [by intros _ ?%elem_of_nil|].
  intros [Hn Hr]%NoDup_cons [[= -> ->]|Hin]%elem_of_cons.
  - by rw bool_decide_true.
  - rw bool_decide_false; [|by apply IH].
    intros ->. apply Hn. by apply (list_elem_of_fmap_2 fst _ (name, e)).
Qed.

Lemma elem_of_get_active_people name r :
  name ∈ get_active_people r ↔
  ∃ e, (name, e) ∈ r ∧ entry_active e ≠ Some false.
Proof.
  unfold get_active_people. rw list_elem_of_fmap. split.
  - intros ([n e] & -> & [Hactive Hin]%list_elem_of_filter). exists e.
    split; [done|]. simpl in *. by destruct (entry_active e) as [[]|].
  - intros (e & Hin & Hactive). exists (name, e). split; [done|].
    apply list_elem_of_filter. split; [|done]. simpl.
    by destruct (entry_active e) as [[]|].
Qed.

(** X25. The active people are names of the roster, in the order of the
    roster, each once: the entries whose ["active"] is true or missing. *)
Theorem active_people_spec r :
  get_active_people r `sublist_of` names r ∧
  (NoDup (names r) → NoDup (get_active_people r)) ∧
  ∀ name, name ∈ get_active_people r ↔
          ∃ e, (name, e) ∈ r ∧ entry_active e ≠ Some false.
Proof.
  assert (get_active_people r `sublist_of` names r) as Hsub
    by apply fmap_sublist, sublist_filter.
  split; [done|]. split; [|intros name; apply elem_of_get_active_people].
  intros Hnodup. by eapply sublist_NoDup.
Qed.

(** X26. [add_person]: a name already in the roster saves nothing; a new name
    goes last, active, leaves the entries before it and the uniqueness of
    the names as they are, and cannot be added a second time. *)
Theorem add_person_spec name r :
  (name ∈ names r → add_person name r = None) ∧
  (name ∉ names r →
   add_person name r = Some (r ++ [(name, new_entry)]) ∧
   get_active_people (r ++ [(name, new_entry)]) = get_active_people r ++ [name] ∧
   (NoDup (names r) → NoDup (names (r ++ [(name, new_entry)]))) ∧
   add_person name (r ++ [(name, new_entry)]) = None).
Proof.
  unfold add_person. split; [by intros ?; rw bool_decide_true|].
  intros Hnew. rw bool_decide_false //. split; [done|]. split; [|split].
  - unfold get_active_people. by rw filter_app fmap_app.
  - intros Hnodup. rw /names fmap_app. apply NoDup_app.
    split; [done|]. split; [|apply NoDup_singleton].
    by intros x Hx ->%list_elem_of_singleton.
  - rw bool_decide_true //. rw /names fmap_app. apply elem_of_app. right. left.
Qed.

Lemma names_set_active name value r : names (set_active name value r) = names r.
Proof.
  unfold names. induction r as [|[n e] r IH]; [done|]. simpl.
  case_bool_decide; simpl; [done|]. by f_equal.
Qed.

Lemma find_entry_set_active name value r e :
  find_entry name r = Some e →
  find_entry name (set_active name value r)
    = Some {| entry_active := Some value;
              entry_times_left_out := entry_times_left_out e;
              entry_total_weeks_participated :=
                entry_total_weeks_participated e |}.
Proof.
  induction r as [|[n e'] r IH]; simpl; [done|].
  case_bool_decide as Hn; simpl.
  - rw bool_decide_true //. by intros [= ->].
  - by rw bool_decide_false.
Qed.

Lemma set_active_back name value r e :
  find_entry name r = Some e → entry_active e = Some value →
  ∀ value', set_active name value (set_active name value' r) = r.
Proof.
  induction r as [|[n e'] r IH]; simpl; [done|].
  case_bool_decide as Hn; simpl.
  - intros [= ->] Hactive value'. rw bool_decide_true //. simpl.
    destruct e. simpl in *. by subst.
  - intros Hfind Hactive value'. rw bool_decide_false //. by rw IH.
Qed.

Lemma elem_of_set_active name value r x e :
  (x, e) ∈ set_active name value r → x ≠ name → (x, e) ∈ r.
Proof.
  induction r as [|[n e'] r IH]; simpl; [done|].
  case_bool_decide as Hn; intros [[= -> ->]|Hin]%elem_of_cons Hx;
    try done; try (by left); right; eauto.
Qed.

Lemma elem_of_set_active_2 name value r x e :
  (x, e) ∈ r → x ≠ name → (x, e) ∈ set_active name value r.
Proof.
  induction r as [|[n e'] r IH]; simpl; [done|].
  case_bool_decide as Hn; intros [[= -> ->]|Hin]%elem_of_cons Hx;
    try done; try (by left); right; eauto.
Qed.

(** X27. [toggle] on a roster with unique names: the names stay as they are,
    the person toggled changes sides between active and inactive, nobody
    else does, and a second toggle restores the data. *)
Theorem toggle_spec name r r' :
  NoDup (names r) → toggle name r = Saved r' →
  names r' = names r ∧
  toggle name r' = Saved r ∧
  (name ∈ get_active_people r' ↔ name ∉ get_active_people r) ∧
  ∀ x, x ≠ name → (x ∈ get_active_people r' ↔ x ∈ get_active_people r).
Proof.
  intros Hnodup. unfold toggle.
  destruct (find_entry name r) as [e|] eqn:Hfind; [|done].
  destruct (entry_active e) as [status|] eqn:Hstatus; [|done].
  intros [= <-]. split; [apply names_set_active|]. split; [|split].
  - rw (find_entry_set_active _ _ _ _ Hfind). simpl. rw negb_involutive.
    by rw (set_active_back _ _ _ _ Hfind Hstatus).
  - rw !elem_of_get_active_people.
    assert (NoDup (names (set_active name (negb status) r))) as Hnodup'
      by (by rw names_set_active).
    pose proof (find_entry_set_active _ (negb status) _ _ Hfind) as Hfind'.
    split.
    + intros (e' & He' & Hactive') (e0 & He0 & Hactive0).
      apply (find_entry_unique _ _ _ Hnodup') in He'.
      apply (find_entry_unique _ _ _ Hnodup) in He0.
      rw Hfind' in He'. rw Hfind in He0. simplify_eq/=.
      destruct status; simpl in *; congruence.
    + intros Hnot. eexists. split; [by eapply find_entry_Some|]. simpl.
      destruct status; simpl; [|done]. destruct Hnot. exists e.
      split; [by apply find_entry_Some|congruence].
  - intros x Hx. rw !elem_of_get_active_people.
    split; intros (e' & He' & Hactive'); exists e'; split; try done.
    + by eapply elem_of_set_active.
    + by apply elem_of_set_active_2.
Qed.

(** X28. [toggle] where it saves nothing: an unknown name is reported as not
    found, and an entry without the key ["active"] raises [KeyError],
    although [get_active_people] counts that person as active. *)
Theorem toggle_failures name r :
  (name ∉ names r → toggle name r = NotFound) ∧
  (∀ e, find_entry name r = Some e → entry_active e = None →
        toggle name r = KeyError ∧ name ∈ get_active_people r).
Proof.
  unfold toggle. split.
  - intros Hnew%find_entry_None. by rw Hnew.
  - intros e Hfind Hactive. rw Hfind Hactive. split; [done|].
    apply elem_of_get_active_people. exists e.
    split; [by apply find_entry_Some|]. by rw Hactive.
Qed.

End RosterSpec.

(** ** The further properties on concrete inputs *)

Lemma generate_odd_group_witness :
  generate_pairings_for_even_group [1; 2; 3] = [].
Proof. apply (generate_odd_group [1; 2; 3] 1). reflexivity. Defined.

Lemma generate_complete_witness :
  ∃ m', m' ∈ generate_pairings_for_even_group [1; 2; 3; 4] ∧
        same_pair_set [(3, 1); (4, 2)] m'.
Proof.
  apply generate_complete.
  - by apply (bool_decide_unpack _).
  - by apply (bool_decide_unpack _).
Defined.

Lemma every_split_is_enumerated_witness :
  ∃ s, s ∈ get_all_possible_pairings [1; 2; 3] ∧
       same_pair_set [(3, 1)] s.1 ∧ s.2 = [2].
Proof.
  apply every_split_is_enumerated.
  - simpl. lia.
  - by apply (bool_decide_unpack _).
  - simpl. lia.
  - by apply (bool_decide_unpack _).
Defined.

Lemma solution_shape_witness :
  length ([(1, 3)], [2]).2 = length [1; 2; 3] `mod` 2 ∧
  2 * length ([(1, 3)], [2]).1 + length ([(1, 3)], [2]).2 = length [1; 2; 3].
Proof. apply solution_shape. simpl. right. left. Defined.

Lemma pairs_follow_input_order_witness : [1; 3] `sublist_of` [1; 2; 3].
Proof.
  apply (pairs_follow_input_order [1; 2; 3] ([(1, 3)], [2])).
  - simpl. right. left.
  - left.
Defined.

Lemma history_weeks_witness :
  ["2025-29"] ≠ [] ∧
  ∀ week, week ∈ ["2025-29"] ↔
          ∃ w_data, (week, w_data) ∈ default [] (pairings test_data) ∧
                    (["Peter Smith"; "Mary Jones"] ∈ all_pairs w_data ∨
                     ["Mary Jones"; "Peter Smith"] ∈ all_pairs w_data).
Proof.
  apply (history_weeks test_data "Peter Smith" "Mary Jones").
  vm_compute. reflexivity.
Defined.

Lemma history_keys_sorted_witness :
  String.ltb "Peter Smith" "Mary Jones" = false ∧
  ∃ week w_data a b, (week, w_data) ∈ default [] (pairings test_data) ∧
                     [a; b] ∈ all_pairs w_data ∧
                     ("Mary Jones", "Peter Smith") = pair_key a b.
Proof.
  apply (history_keys_sorted test_data ("Mary Jones", "Peter Smith") ["2025-29"]).
  vm_compute. reflexivity.
Defined.

Lemma most_recent_is_greatest_witness :
  py_max [] = Raise ValueError ∧
  ∃ most_recent,
    py_max ["2025-30"; "2025-29"] = Ok most_recent ∧
    most_recent ∈ ["2025-30"; "2025-29"] ∧
    ∀ week, week ∈ ["2025-30"; "2025-29"] → String.leb week most_recent = true.
Proof.
  split.
  - by apply (proj1 (most_recent_is_greatest [])).
  - by apply (proj2 (most_recent_is_greatest ["2025-30"; "2025-29"])).
Defined.

Lemma test_data_weeks_parse week w_data :
  (week, w_data) ∈ default [] (pairings test_data) → ∃ n, week_num week = Ok n.
Proof.
  simpl. intros [[= -> _]|[[= -> _]|[]%elem_of_nil]%elem_of_cons]%elem_of_cons;
    by eexists.
Qed.

Lemma score_solution_total_witness :
  returns_or_overflows
    (score_solution [("Mary Jones", "Peter Smith")] ["Sarah Brown"] test_data
       "2025-31" default_weights) ∧
  ∃ score b,
    score_solution [("Mary Jones", "Peter Smith")] [] test_data "2025-31"
      default_weights = Ok (score, b).
Proof.
  split.
  - apply (score_solution_total _ _ test_data "2025-31" default_weights 31%Z).
    + reflexivity.
    + apply test_data_weeks_parse.
    + right. vm_compute. discriminate.
  - apply (proj2 (score_solution_total [("Mary Jones", "Peter Smith")] []
                    test_data "2025-31" default_weights 31%Z eq_refl
                    test_data_weeks_parse (or_introl eq_refl))
             eq_refl 10 (-5) (-1))%Z.
    done.
Defined.

Lemma score_matches_breakdown_witness :
  ∃ score b,
    score_solution [("Mary Jones", "Peter Smith")] [] test_data
      "2025-31" default_weights = Ok (score, b) ∧
    total_pairs b = 1 ∧ counted_pairs b ≤ 1 ∧
    fairness_score b = PInt 0 ∧
    score = PInt (weighted_counts 10 (-5) (-1) b).
Proof.
  eexists _, _. split; [vm_compute; reflexivity|].
  destruct (score_matches_breakdown [("Mary Jones", "Peter Smith")]
              [] test_data "2025-31" default_weights (PInt (-5))
              {| first_time_meetings := 0; recent_pairings := 1;
                 old_pairings := 0; fairness_score := PInt 0;
                 total_pairs := 1 |}) as (Htotal & Hcounted & Hscore);
    [vm_compute; reflexivity|].
  split; [exact Htotal|]. split; [exact Hcounted|].
  destruct (Hscore eq_refl) as [Hfair Hweighted].
  split; [exact Hfair|]. by apply Hweighted.
Defined.

Lemma all_first_meetings_witness :
  ∃ score b,
    score_solution [("Mary Jones", "John Doe")] [] test_data "next week"
      default_weights = Ok (score, b) ∧
    first_time_meetings b = 1 ∧ recent_pairings b = 0 ∧ old_pairings b = 0 ∧
    add_all (PInt 0) [PInt 10] = Ok score ∧
    (∀ k, PInt 10 = PInt k → score = PInt (1 * k)).
Proof.
  apply (all_first_meetings [("Mary Jones", "John Doe")] test_data "next week"
           default_weights).
  intros p ->%list_elem_of_singleton. vm_compute. reflexivity.
Defined.

Lemma target_week_without_dash_witness :
  score_solution [("Mary Jones", "Peter Smith")] [] test_data "202531"
    default_weights = Raise IndexError.
Proof.
  apply (target_week_without_dash _ _ _ _ _ ("Mary Jones", "Peter Smith")).
  - by apply (bool_decide_unpack _).
  - left.
  - vm_compute. discriminate.
Defined.

Lemma ranked_count_witness :
  ∃ solutions,
    find_best_pairings test_people test_data "2025-31"
      [("Mary Jones", "Peter Smith")] 2 = Ok solutions ∧
    length solutions
      = 2 `min` length (get_all_possible_pairings
                          (available_people test_people
                             [("Mary Jones", "Peter Smith")])).
Proof.
  eexists. split; [vm_compute; reflexivity|].
  apply (ranked_count test_data "2025-31" test_people
           [("Mary Jones", "Peter Smith")] 2).
  - vm_compute. lia.
  - vm_compute. reflexivity.
Defined.

Lemma returned_is_scored_candidate_witness :
  ∃ solutions r,
    find_best_pairings test_people test_data "2025-31"
      [("Mary Jones", "Peter Smith")] 1 = Ok solutions ∧ r ∈ solutions ∧
    ∃ c, c ∈ get_all_possible_pairings
               (available_people test_people [("Mary Jones", "Peter Smith")]) ∧
         scores_as test_data "2025-31" [("Mary Jones", "Peter Smith")] c r.
Proof.
  eexists _, _. split; [vm_compute; reflexivity|].
  assert (∀ (x : ranked), x ∈ [x]) as Hhead by (intros; left).
  split; [apply Hhead|].
  eapply (returned_is_scored_candidate test_data "2025-31" test_people
            [("Mary Jones", "Peter Smith")] 1).
  - vm_compute. lia.
  - vm_compute. reflexivity.
  - left.
Defined.

Lemma returned_are_the_best_witness :
  ∃ solutions,
    find_best_pairings test_people test_data "2025-31"
      [("Mary Jones", "Peter Smith")] 1 = Ok solutions ∧
    ∃ r', scores_as test_data "2025-31" [("Mary Jones", "Peter Smith")]
            ([("Sarah Brown", "John Doe")], ["Lisa Wilson"]) r' ∧
          (r' ∈ solutions ∨ ∀ r, r ∈ solutions → score_ge r r').
Proof.
  eexists. split; [vm_compute; reflexivity|].
  apply (returned_are_the_best test_data "2025-31" test_people
           [("Mary Jones", "Peter Smith")] 1).
  - vm_compute. lia.
  - vm_compute. reflexivity.
  - vm_compute. right. right. left.
Defined.

Lemma everyone_accounted_for_witness :
  ∃ solutions r,
    find_best_pairings test_people test_data "2025-31"
      [("Mary Jones", "Peter Smith")] 1 = Ok solutions ∧ r ∈ solutions ∧
    members (pairs r) ++ left_out r
      ≡ₚ members [("Mary Jones", "Peter Smith")]
         ++ available_people test_people [("Mary Jones", "Peter Smith")].
Proof.
  eexists _, _. split; [vm_compute; reflexivity|].
  assert (∀ (x : ranked), x ∈ [x]) as Hhead by (intros; left).
  split; [apply Hhead|].
  eapply (everyone_accounted_for test_data "2025-31" test_people
            [("Mary Jones", "Peter Smith")] 1).
  - vm_compute. reflexivity.
  - left.
Defined.

Lemma find_best_pairings_total_witness :
  ((∃ solutions,
      find_best_pairings test_people test_data "2025-31" [] 3 = Ok solutions ∧
      (1 ≤ 3 → solutions ≠ [])) ∨
   find_best_pairings test_people test_data "2025-31" [] 3
     = Raise OverflowError) ∧
  ∃ solutions,
    find_best_pairings ["Mary Jones"; "Peter Smith"; "Sarah Brown"; "John Doe"]
      test_data "2025-31" [] 3 = Ok solutions ∧
    (1 ≤ 3 → solutions ≠ []).
Proof.
  split.
  - apply (find_best_pairings_total test_data "2025-31" test_people [] 3 31%Z).
    + reflexivity.
    + apply test_data_weeks_parse.
    + right. right. vm_compute. discriminate.
  - apply (proj2 (find_best_pairings_total test_data "2025-31"
                    ["Mary Jones"; "Peter Smith"; "Sarah Brown"; "John Doe"]
                    [] 3 31%Z eq_refl test_data_weeks_parse
                    (or_introl eq_refl))).
    left. reflexivity.
Defined.

Lemma empty_roster_odd_group_fails_witness :
  find_best_pairings ["Ann"; "Bob"; "Cy"] {| people := ∅; pairings := None |}
    "2025-31" [] 3 ≠ Ok [].
Proof.
  apply empty_roster_odd_group_fails.
  - reflexivity.
  - vm_compute. lia.
  - reflexivity.
Defined.

Lemma add_person_spec_witness :
  add_person "Ann" [("Ann", new_entry)] = None ∧
  add_person "Bob" [("Ann", new_entry)]
    = Some [("Ann", new_entry); ("Bob", new_entry)] ∧
  get_active_people [("Ann", new_entry); ("Bob", new_entry)] = ["Ann"; "Bob"].
Proof.
  split.
  - apply (proj1 (add_person_spec "Ann" [("Ann", new_entry)])). left.
  - destruct (proj2 (add_person_spec "Bob" [("Ann", new_entry)]))
      as (Hadd & Hactive & _); [|by split].
    by intros [[=]|[]%elem_of_nil]%elem_of_cons.
Defined.

Lemma toggle_spec_witness :
  let r := [("Ann", new_entry); ("Bob", new_entry)] in
  let r' := [("Ann", {| entry_active := Some false; entry_times_left_out := 0;
                        entry_total_weeks_participated := 0 |});
             ("Bob", new_entry)] in
  names r' = names r ∧ toggle "Ann" r' = Saved r ∧
  ("Ann" ∈ get_active_people r' ↔ "Ann" ∉ get_active_people r) ∧
  ∀ x, x ≠ "Ann" → (x ∈ get_active_people r' ↔ x ∈ get_active_people r).
Proof.
  intros r r'. apply toggle_spec.
  - by apply (bool_decide_unpack _).
  - reflexivity.
Defined.

Lemma toggle_failures_witness :
  let e := {| entry_active := None; entry_times_left_out := 0;
              entry_total_weeks_participated := 0 |} in
  toggle "Bob" [("Ann", e)] = NotFound ∧
  toggle "Ann" [("Ann", e)] = KeyError ∧
  "Ann" ∈ get_active_people [("Ann", e)].
Proof.
  intros e. split.
  - apply (proj1 (toggle_failures "Bob" [("Ann", e)])).
    by intros [[=]|[]%elem_of_nil]%elem_of_cons.
  - by apply (proj2 (toggle_failures "Ann" [("Ann", e)]) e).
Defined.

Lemma active_people_spec_witness :
  NoDup (get_active_people [("Ann", new_entry); ("Bob", new_entry)]).
Proof.
  apply (proj1 (proj2 (active_people_spec [("Ann", new_entry); ("Bob", new_entry)]))).
  by apply (bool_decide_unpack _).
Defined.

Lemma no_solution_iff_short_witness :
  get_all_possible_pairings [1] = [] ∧ get_all_possible_pairings [1; 2] ≠ [].
Proof.
  split.
  - apply (proj2 (no_solution_iff_short [1])). simpl. lia.
  - intros Hnil%(proj1 (no_solution_iff_short [1; 2])). simpl in Hnil. lia.
Defined.

Lemma first_meeting_iff_never_recorded_witness :
  let w_data := {| week_pairs := Some [["Mary Jones"; "Peter Smith"];
                                       ["Sarah Brown"; "John Doe"]];
                   week_manual_pairs := None; week_auto_pairs := None |} in
  (["Mary Jones"; "John Doe"] ∉ all_pairs w_data) ∧
  (["John Doe"; "Mary Jones"] ∉ all_pairs w_data).
Proof.
  intros w_data.
  apply (proj1 (first_meeting_iff_never_recorded test_data
                  "Mary Jones" "John Doe")) with (week := "2025-29").
  - vm_compute. reflexivity.
  - left.
Defined.

Lemma available_people_spec_witness :
  "Sarah Brown" ∈ available_people test_people [("Mary Jones", "Peter Smith")].
Proof.
  apply (proj2 (available_people_spec test_people
                  [("Mary Jones", "Peter Smith")])).
  split.
  - right. right. left.
  - by intros pair ->%list_elem_of_singleton.
Defined.
